(** * chat.jsx: the streaming chat page, embedded and verified

    The development follows [src/chat.jsx].  The component [ChatPage] keeps
    its React state in a record; [sendMessage] is a function from that state
    (and the outside world: the clock, the network, the JSON parser) to the
    state after the exchange.  The read loop, the frame splitting on line
    breaks, the [switch] over [event.type] and the [catch]/[finally] blocks
    are written in the order of the source.

    Modelling decisions, all local to this file:
    - JavaScript strings are [string]; only the ASCII white space characters
      are recognised by [trim].
    - A state setter applied to an updater function ([setMessages(prev => ..)])
      is applied at once; the updaters of one exchange run in the order in
      which they are queued, so the state after the exchange is the same.
    - [assistantMsg] is one mutable object.  [TEXT_MESSAGE_START] stores the
      object itself in the array, so the array holds a reference to it
      ([AssistantMsg]) and later writes to [assistantMsg.content] are seen
      through that reference; [{ ...assistantMsg }] stores a copy.
    - A response body is a finite list of chunks followed by the end of the
      stream or by a failing read; a chunk is the text that
      [decoder.decode(value, { stream: true })] returns for it.
    - The fields that the page reads from a parsed event are strings.
      [JSON.parse] is a parameter of the development. *)

From Stdlib Require Import ZArith Ascii.
From stdpp Require Import base list strings.

Local Open Scope Z_scope.

(** ** JavaScript primitives used by the page *)

Module JS.

Definition LF : ascii := "010"%char.

Definition is_LF (c : ascii) : bool := bool_decide (c = LF).

(** [hd_cons c parts] puts [c] in front of the first element of [parts]. *)
Definition hd_cons (c : ascii) (parts : list string) : list string :=
  match parts with
  | [] => [String c ""]
  | p :: rest => String c p :: rest
  end.

(** [s.split("\n")] *)
Fixpoint split (s : string) : list string :=
  match s with
  | "" => [""]
  | String c s' => if is_LF c then "" :: split s' else hd_cons c (split s')
  end.

(** [parts.pop()]: the removed last element ([None] is [undefined]) and
    the array that is left. *)
Definition pop {A} (parts : list A) : option A * list A :=
  (last parts, removelast parts).

(** [v || ""] for [v] a string or [undefined]; the empty string is falsy
    and is replaced by the empty string. *)
Definition or_empty (v : option string) : string := default "" v.

(** [part.startsWith(p)] *)
Definition startsWith (p part : string) : bool := String.prefix p part.

(** [part.slice(n)] for [0 <= n] *)
Fixpoint slice (n : nat) (part : string) : string :=
  match n, part with
  | O, _ => part
  | S n', String _ rest => slice n' rest
  | S _, "" => ""
  end.

Fixpoint trimStart (s : string) : string :=
  match s with
  | String c s' => if Ascii.is_space c then trimStart s' else s
  | "" => ""
  end.

(** [s.trim()] *)
Definition trim (s : string) : string :=
  String.rev (trimStart (String.rev (trimStart s))).

(** Some character of [s] is not white space. *)
Fixpoint has_other_than_space (s : string) : bool :=
  match s with
  | "" => false
  | String c s' => negb (Ascii.is_space c) || has_other_than_space s'
  end.

(** Truthiness of a string: only the empty string is falsy. *)
Definition truthy (s : string) : bool := negb (bool_decide (s = "")).

(** The text stored between two frames on the wire. *)
Definition unlines (frames : list string) : string :=
  foldr (fun f acc => f +:+ String LF acc) "" frames.

Fixpoint concat (chunks : list string) : string :=
  match chunks with
  | [] => ""
  | c :: rest => c +:+ concat rest
  end.

Fixpoint has_LF (s : string) : bool :=
  match s with
  | "" => false
  | String c s' => is_LF c || has_LF s'
  end.

End JS.

(** ** Frame splitter (the buffer handling of the read loop)

    [[
      buffer += decoder.decode(value, { stream: true });
      const parts = buffer.split("\n");
      buffer = parts.pop() || "";
    ]] *)

Definition split_chunk (buffer value : string) : list string * string :=
  let buffer := buffer +:+ value in
  let parts := JS.split buffer in
  let '(popped, parts) := JS.pop parts in
  (parts, JS.or_empty popped).

(** The frames yielded while the chunks of a stream arrive, and the pending
    buffer that is left after the last chunk. *)
Fixpoint frames_of_chunks (buffer : string) (chunks : list string)
  : list string * string :=
  match chunks with
  | [] => ([], buffer)
  | value :: rest =>
      let '(parts, buffer) := split_chunk buffer value in
      let '(later, buffer) := frames_of_chunks buffer rest in
      (parts ++ later, buffer)
  end.

(** ** Data model *)

Inductive Role := user | assistant.

Global Instance Role_eq_dec : EqDecision Role.
Proof. solve_decision. Defined.

Module Message.
Record t := mk { id : Z; role : Role; content : string; time : string }.

(** [msg.content += delta] *)
Definition append_content (delta : string) (msg : t) : t :=
  mk (id msg) (role msg) (content msg +:+ delta) (time msg).
End Message.

Inductive ToolStatus := calling | completed.

Module ToolCall.
Record t := mk {
  id : string;
  name : string;
  args : string;
  result : string;
  status : ToolStatus;
  expanded : bool
}.
End ToolCall.

(** A decoded event: the fields of the parsed record that the page reads. *)
Module Event.
Record t := mk {
  type : string;
  delta : string;
  toolCallId : string;
  toolCallName : string;
  content : string;
  message : string
}.
End Event.

(** One reading of the clock: [Date.now()] and
    [new Date().toLocaleTimeString([], ..)]. *)
Record Stamp := { now : Z; toLocaleTimeString : string }.

(** An element of the [messages] array while an exchange runs: an object of
    its own, or the object held by the local variable [assistantMsg]. *)
Inductive MessageRef :=
  | Own (msg : Message.t)
  | AssistantMsg.

(** The React state of [ChatPage]; [M] is what the [messages] array holds. *)
Record ChatPage (M : Type) := {
  messages : list M;
  input : string;
  isLoading : bool;
  currentStatus : string;
  toolCalls : list ToolCall.t;
  userHasScrolled : bool;
  isNearBottom : bool
}.
Arguments messages {M}.
Arguments input {M}.
Arguments isLoading {M}.
Arguments currentStatus {M}.
Arguments toolCalls {M}.
Arguments userHasScrolled {M}.
Arguments isNearBottom {M}.

Section Setters.
Context {M N : Type}.

Definition mapMessages (f : list M -> list N) (p : ChatPage M) : ChatPage N :=
  {| messages := f (messages p); input := input p; isLoading := isLoading p;
     currentStatus := currentStatus p; toolCalls := toolCalls p;
     userHasScrolled := userHasScrolled p; isNearBottom := isNearBottom p |}.

Definition setInput (v : string) (p : ChatPage M) : ChatPage M :=
  {| messages := messages p; input := v; isLoading := isLoading p;
     currentStatus := currentStatus p; toolCalls := toolCalls p;
     userHasScrolled := userHasScrolled p; isNearBottom := isNearBottom p |}.

Definition setIsLoading (v : bool) (p : ChatPage M) : ChatPage M :=
  {| messages := messages p; input := input p; isLoading := v;
     currentStatus := currentStatus p; toolCalls := toolCalls p;
     userHasScrolled := userHasScrolled p; isNearBottom := isNearBottom p |}.

Definition setCurrentStatus (v : string) (p : ChatPage M) : ChatPage M :=
  {| messages := messages p; input := input p; isLoading := isLoading p;
     currentStatus := v; toolCalls := toolCalls p;
     userHasScrolled := userHasScrolled p; isNearBottom := isNearBottom p |}.

Definition setToolCalls (f : list ToolCall.t -> list ToolCall.t)
    (p : ChatPage M) : ChatPage M :=
  {| messages := messages p; input := input p; isLoading := isLoading p;
     currentStatus := currentStatus p; toolCalls := f (toolCalls p);
     userHasScrolled := userHasScrolled p; isNearBottom := isNearBottom p |}.

Definition setUserHasScrolled (v : bool) (p : ChatPage M) : ChatPage M :=
  {| messages := messages p; input := input p; isLoading := isLoading p;
     currentStatus := currentStatus p; toolCalls := toolCalls p;
     userHasScrolled := v; isNearBottom := isNearBottom p |}.

Definition setIsNearBottom (v : bool) (p : ChatPage M) : ChatPage M :=
  {| messages := messages p; input := input p; isLoading := isLoading p;
     currentStatus := currentStatus p; toolCalls := toolCalls p;
     userHasScrolled := userHasScrolled p; isNearBottom := v |}.
End Setters.

Definition setMessages {M} (f : list M -> list M) (p : ChatPage M) : ChatPage M :=
  mapMessages f p.

(** The state of one running exchange: the React state, and the local
    variables of [sendMessage] that the [switch] reads and writes.  [tick]
    counts the readings of the clock taken so far. *)
Record Exchange := {
  page : ChatPage MessageRef;
  assistantMsg : Message.t;
  messageAdded : bool;
  tick : nat
}.

Definition on_page (f : ChatPage MessageRef -> ChatPage MessageRef)
    (x : Exchange) : Exchange :=
  {| page := f (page x); assistantMsg := assistantMsg x;
     messageAdded := messageAdded x; tick := tick x |}.

Definition set_assistantMsg (msg : Message.t) (x : Exchange) : Exchange :=
  {| page := page x; assistantMsg := msg;
     messageAdded := messageAdded x; tick := tick x |}.

Definition set_messageAdded (v : bool) (x : Exchange) : Exchange :=
  {| page := page x; assistantMsg := assistantMsg x;
     messageAdded := v; tick := tick x |}.

Definition next_tick (x : Exchange) : Exchange :=
  {| page := page x; assistantMsg := assistantMsg x;
     messageAdded := messageAdded x; tick := S (tick x) |}.

(** Reading an element of the array. *)
Definition deref (assistantMsg : Message.t) (r : MessageRef) : Message.t :=
  match r with
  | Own msg => msg
  | AssistantMsg => assistantMsg
  end.

(** The transcript as a renderer sees it. *)
Definition transcript (x : Exchange) : list Message.t :=
  deref (assistantMsg x) <$> messages (page x).

(** ** The [switch] over [event.type] *)

(** [prev.map(tc => tc.id === id ? f(tc) : tc)] *)
Definition map_matching (id : string) (f : ToolCall.t -> ToolCall.t)
    (prev : list ToolCall.t) : list ToolCall.t :=
  (fun tc => if decide (ToolCall.id tc = id) then f tc else tc) <$> prev.

(** [prev.find(tc => tc.id === id)] *)
Definition find_id (id : string) (prev : list ToolCall.t) : option ToolCall.t :=
  snd <$> list_find (fun tc => ToolCall.id tc = id) prev.

Definition restart (tc : ToolCall.t) : ToolCall.t :=
  ToolCall.mk (ToolCall.id tc) (ToolCall.name tc) "" (ToolCall.result tc)
              calling (ToolCall.expanded tc).

Definition add_args (delta : string) (tc : ToolCall.t) : ToolCall.t :=
  ToolCall.mk (ToolCall.id tc) (ToolCall.name tc) (ToolCall.args tc +:+ delta)
              (ToolCall.result tc) (ToolCall.status tc) (ToolCall.expanded tc).

Definition set_result (content : string) (tc : ToolCall.t) : ToolCall.t :=
  ToolCall.mk (ToolCall.id tc) (ToolCall.name tc) (ToolCall.args tc)
              content completed (ToolCall.expanded tc).

Definition tool_call_start (event : Event.t) (prev : list ToolCall.t)
  : list ToolCall.t :=
  match find_id (Event.toolCallId event) prev with
  | Some _ => map_matching (Event.toolCallId event) restart prev
  | None =>
      let newToolCall :=
        ToolCall.mk (Event.toolCallId event) (Event.toolCallName event)
                    "" "" calling false in
      prev ++ [newToolCall]
  end.

(** The updater of the [TEXT_MESSAGE_CONTENT] case. *)
Definition replace_last (assistantMsg : Message.t) (prev : list MessageRef)
  : list MessageRef :=
  let updated := prev in
  let lastIndex := Z.of_nat (length updated) - 1 in
  match updated !! Z.to_nat lastIndex with
  | Some r =>
      if (0 <=? lastIndex)
         && bool_decide (Message.role (deref assistantMsg r) = assistant)
      then <[Z.to_nat lastIndex := Own assistantMsg]> updated
      else updated
  | None => updated
  end.

Section Reducer.
(** The clock: the reading taken at each tick. *)
Variable Date : nat -> Stamp.

Definition error_message (x : Exchange) (text : string) : Message.t :=
  Message.mk (now (Date (tick x)) + 2) assistant text
             (toLocaleTimeString (Date (tick x))).

Definition reduce (event : Event.t) (x : Exchange) : Exchange :=
  let type := Event.type event in
  if decide (type = "RUN_STARTED") then
    on_page (setCurrentStatus "processing...") x
  else if decide (type = "TEXT_MESSAGE_START") then
    let x := on_page (setCurrentStatus "typing...") x in
    if negb (messageAdded x) then
      set_messageAdded true
        (on_page (setMessages (fun prev => prev ++ [AssistantMsg])) x)
    else x
  else if decide (type = "TEXT_MESSAGE_CONTENT") then
    let x := set_assistantMsg
               (Message.append_content (Event.delta event) (assistantMsg x)) x in
    on_page (setMessages (replace_last (assistantMsg x))) x
  else if decide (type = "TEXT_MESSAGE_END") then
    on_page (setCurrentStatus "online") x
  else if decide (type = "TOOL_CALL_START") then
    let x := on_page (setCurrentStatus
               ("calling " +:+ Event.toolCallName event +:+ "...")) x in
    on_page (setToolCalls (tool_call_start event)) x
  else if decide (type = "TOOL_CALL_ARGS") then
    on_page (setToolCalls
      (map_matching (Event.toolCallId event) (add_args (Event.delta event)))) x
  else if decide (type = "TOOL_CALL_RESULT") then
    let x := on_page (setToolCalls
      (map_matching (Event.toolCallId event)
                    (set_result (Event.content event)))) x in
    on_page (setCurrentStatus "processing results...") x
  else if decide (type = "RUN_FINISHED") then
    let x := on_page (setCurrentStatus "online") x in
    on_page (setIsLoading false) x
  else if decide (type = "RUN_ERROR") then
    let x := on_page (setCurrentStatus "error") x in
    let x := on_page (setIsLoading false) x in
    if negb (messageAdded x) then
      let msg := error_message x ("Error: " +:+ Event.message event) in
      next_tick (on_page (setMessages (fun prev => prev ++ [Own msg])) x)
    else x
  else x.

(** The events of one exchange, applied in arrival order. *)
Definition reduce_all (events : list Event.t) (x : Exchange) : Exchange :=
  foldl (fun x event => reduce event x) x events.
End Reducer.

(** ** Session controller: [sendMessage] *)

(** How the body of a response ends: [reader.read()] resolves with
    [done: true], or it rejects. *)
Inductive StreamEnd := EndOfStream | ReadRejects.

(** The body of a response, as the chunks that [decoder.decode] returns. *)
Record Body := { chunks : list string; ending : StreamEnd }.

(** The request of one exchange; the prompt is the value that the code passes
    through [encodeURIComponent] into the query string. *)
Record Request := { method : string; userprompt : string; Accept : string }.

(** [await fetch(..)]: the promise rejects (no connection), or it resolves
    with a response. *)
Inductive FetchResult :=
  | Rejects
  | Resolves (ok : bool) (status : Z) (body : option Body).

Inductive Completion := Returns | Throws.

(** The array as it is once [assistantMsg] is no longer written to. *)
Definition freeze (x : Exchange) : ChatPage Message.t :=
  mapMessages (fun prev => deref (assistantMsg x) <$> prev) (page x).

Definition thaw (p : ChatPage Message.t) : ChatPage MessageRef :=
  mapMessages (fun prev => Own <$> prev) p.

Definition generic_failure : string :=
  "Sorry, an error occurred. Please try again.".

Definition request_for (userPrompt : string) : Request :=
  {| method := "POST"; userprompt := userPrompt;
     Accept := "text/event-stream" |}.

Section Session.
Variable Date : nat -> Stamp.
(** [JSON.parse(data)] followed by the read of [event.type]: [None] when
    either throws. *)
Variable JSON_parse : string -> option Event.t.
Variable fetch : Request -> FetchResult.

(** The body of [for (const part of parts)]. *)
Definition handle_part (part : string) (x : Exchange) : Exchange :=
  if JS.startsWith "data: " part then
    let data := JS.slice 6 part in
    match JSON_parse data with
    | Some event => reduce Date event x
    | None => x
    end
  else x.

Definition handle_parts (parts : list string) (x : Exchange) : Exchange :=
  foldl (fun x part => handle_part part x) x parts.

(** The [while (true)] loop over the chunks that are read before the
    stream ends. *)
Fixpoint read_loop (chunks : list string) (buffer : string) (x : Exchange)
  : Exchange * string :=
  match chunks with
  | [] => (x, buffer)
  | value :: rest =>
      let '(parts, buffer) := split_chunk buffer value in
      let x := handle_parts parts x in
      read_loop rest buffer x
  end.

(** The local variables declared once the response is there. *)
Definition open_stream (p : ChatPage Message.t) (t : nat) : Exchange :=
  let assistantMsg :=
    Message.mk (now (Date t) + 1) assistant ""
               (toLocaleTimeString (Date t)) in
  {| page := thaw p; assistantMsg := assistantMsg;
     messageAdded := false; tick := S t |}.

(** The [try] block; the result is the state when control leaves it, the
    number of clock readings taken, and how it is left. *)
Definition try_block (userPrompt : string) (p : ChatPage Message.t)
    (t : nat) : Completion * ChatPage Message.t * nat :=
  match fetch (request_for userPrompt) with
  | Rejects => (Throws, p, t)
  | Resolves ok status None => (Throws, p, t)
  | Resolves ok status (Some body) =>
      if negb ok then (Throws, p, t)
      else
        let x := open_stream p t in
        let '(x, buffer) := read_loop (chunks body) "" x in
        match ending body with
        | EndOfStream => (Returns, freeze x, tick x)
        | ReadRejects => (Throws, freeze x, tick x)
        end
  end.

Definition catch_block (p : ChatPage Message.t) (t : nat)
  : ChatPage Message.t :=
  let msg := Message.mk (now (Date t) + 2) assistant generic_failure
                        (toLocaleTimeString (Date t)) in
  let p := setMessages (fun prev => prev ++ [msg]) p in
  setCurrentStatus "error" p.

Definition finally_block (p : ChatPage Message.t) : ChatPage Message.t :=
  let p := setIsLoading false p in
  setCurrentStatus "online" p.

(** The state in which the [try] block is entered. *)
Definition submit (st : ChatPage Message.t) : ChatPage Message.t :=
  let userMsg :=
    Message.mk (now (Date 0)) user (JS.trim (input st))
               (toLocaleTimeString (Date 0)) in
  let st := setMessages (fun prev => prev ++ [userMsg]) st in
  let st := setInput "" st in
  let st := setIsLoading true st in
  let st := setCurrentStatus "thinking..." st in
  let st := setToolCalls (fun _ => []) st in
  let st := setUserHasScrolled false st in
  setIsNearBottom true st.

(** [sendMessage]: the state after the exchange and the requests issued. *)
Definition sendMessage (st : ChatPage Message.t)
  : ChatPage Message.t * list Request :=
  if negb (JS.truthy (JS.trim (input st))) || isLoading st then (st, [])
  else
    let userPrompt := JS.trim (input st) in
    let '(completion, p, t) := try_block userPrompt (submit st) 1 in
    let p := match completion with
             | Returns => p
             | Throws => catch_block p t
             end in
    (finally_block p, [request_for userPrompt]).
End Session.

(** The state in which the first event of an exchange is applied: the
    transcript ends with the message of the user, the registry is empty and
    no assistant message has been appended. *)
Definition exchange_start (Date : nat -> Stamp) (st : ChatPage Message.t)
  : Exchange :=
  open_stream Date (submit Date st) 1.

(** ** Vocabulary of the statements *)

Definition is_content (event : Event.t) : Prop :=
  Event.type event = "TEXT_MESSAGE_CONTENT".

Definition is_start (event : Event.t) : Prop :=
  Event.type event = "TEXT_MESSAGE_START".

Definition is_args (event : Event.t) : Prop :=
  Event.type event = "TOOL_CALL_ARGS".

(** The deltas of the [TEXT_MESSAGE_CONTENT] events of a sequence,
    concatenated in arrival order. *)
Definition text_of (events : list Event.t) : string :=
  JS.concat (Event.delta <$> filter is_content events).

(** The deltas of the events addressed to the tool call [id], concatenated
    in arrival order. *)
Definition args_for (id : string) (events : list Event.t) : string :=
  JS.concat
    (Event.delta <$> filter (fun event => Event.toolCallId event = id) events).

Definition is_Own (r : MessageRef) : Prop :=
  match r with Own _ => True | AssistantMsg => False end.

(** The ids of the registry, in insertion order. *)
Definition ids (registry : list ToolCall.t) : list string :=
  ToolCall.id <$> registry.

(** [appended older x]: the assistant message has been appended after the
    elements [older], and the last element of the array is the object
    [assistantMsg] or a copy of it that is up to date. *)
Definition appended (older : list MessageRef) (x : Exchange) : Prop :=
  messageAdded x = true
  /\ Message.role (assistantMsg x) = assistant
  /\ exists r, messages (page x) = older ++ [r]
               /\ deref (assistantMsg x) r = assistantMsg x.

(** What holds of every state that an exchange reaches: before the
    assistant message is appended the array holds objects of its own only,
    and afterwards it holds such objects followed by the assistant
    message. *)
Definition coherent (x : Exchange) : Prop :=
  Message.role (assistantMsg x) = assistant
  /\ if messageAdded x
     then exists older, Forall is_Own older /\ appended older x
     else Forall is_Own (messages (page x)).

(** [s] ends with [delta]. *)
Definition ends_with (delta s : string) : bool :=
  String.prefix (String.rev delta) (String.rev s).

(** The text [delta] has been appended to an assistant message of the
    transcript. *)
Definition delta_in_transcript (delta : string) (x : Exchange) : Prop :=
  Exists (fun msg => Message.role msg = assistant
                     /\ ends_with delta (Message.content msg) = true)
         (transcript x).

(** The messages that an exchange has added to the transcript of [st]. *)
Definition exchange_messages (st p : ChatPage Message.t) : list Message.t :=
  drop (length (messages st)) (messages p).

Definition assistant_content_exists (st p : ChatPage Message.t) : Prop :=
  Exists (fun msg => Message.role msg = assistant /\ Message.content msg <> "")
         (exchange_messages st p).

Definition failure_message_appended (p p' : ChatPage Message.t) : Prop :=
  exists msg, messages p' = messages p ++ [msg]
              /\ Message.role msg = assistant
              /\ Message.content msg = generic_failure.

(** The request fails at the level of the transport: no connection, a
    response that is not a success or has no body, or a read that fails. *)
Definition transport_failure (r : FetchResult) : Prop :=
  match r with
  | Rejects => True
  | Resolves ok status None => True
  | Resolves ok status (Some body) => ok = false \/ ending body = ReadRejects
  end.

(** The failure happens before the body is read. *)
Definition fails_before_reading (r : FetchResult) : Prop :=
  match r with
  | Rejects => True
  | Resolves ok status None => True
  | Resolves ok status (Some body) => ok = false
  end.

(** ** Sample data *)

Definition initialMessages : list Message.t :=
  [Message.mk 1 assistant
     "Hello! 👋 I'm your IndiGo Ops Assistant. How can I help?" "11:00 AM"].

Definition initial_page : ChatPage Message.t :=
  {| messages := initialMessages; input := ""; isLoading := false;
     currentStatus := "online"; toolCalls := [];
     userHasScrolled := false; isNearBottom := true |}.

(** A clock that advances by one millisecond per reading. *)
Definition sample_Date (n : nat) : Stamp :=
  {| now := 1700000000000 + Z.of_nat n; toLocaleTimeString := "11:01 AM" |}.

Definition RUN_STARTED : Event.t := Event.mk "RUN_STARTED" "" "" "" "" "".
Definition TEXT_MESSAGE_START : Event.t :=
  Event.mk "TEXT_MESSAGE_START" "" "" "" "" "".
Definition TEXT_MESSAGE_CONTENT (delta : string) : Event.t :=
  Event.mk "TEXT_MESSAGE_CONTENT" delta "" "" "" "".
Definition TOOL_CALL_START (id name : string) : Event.t :=
  Event.mk "TOOL_CALL_START" "" id name "" "".
Definition TOOL_CALL_ARGS (id delta : string) : Event.t :=
  Event.mk "TOOL_CALL_ARGS" delta id "" "" "".
Definition TOOL_CALL_RESULT (id content : string) : Event.t :=
  Event.mk "TOOL_CALL_RESULT" "" id "" content "".
Definition RUN_ERROR (message : string) : Event.t :=
  Event.mk "RUN_ERROR" "" "" "" "" message.

(** A stand-in for [JSON.parse] in the examples: the payload is the type of
    the event, or [C:] followed by a content delta; anything else fails to
    parse. *)
Definition sample_parse (data : string) : option Event.t :=
  if decide (data = "TEXT_MESSAGE_START") then Some TEXT_MESSAGE_START
  else if decide (data = "RUN_STARTED") then Some RUN_STARTED
  else if JS.startsWith "C:" data
       then Some (TEXT_MESSAGE_CONTENT (JS.slice 2 data))
  else None.

Definition line (s : string) : string := s +:+ String JS.LF "".

(** A server whose stream breaks after a first piece of the answer. *)
Definition broken_stream (request : Request) : FetchResult :=
  Resolves true 200
    (Some {| chunks := [line "data: TEXT_MESSAGE_START" +:+ "data: C:H";
                        line "i"];
             ending := ReadRejects |}).

(** A server whose stream ends in the middle of a line. *)
Definition cut_stream (request : Request) : FetchResult :=
  Resolves true 200
    (Some {| chunks := [line "data: TEXT_MESSAGE_START" +:+ "data: C:Hi"];
             ending := EndOfStream |}).

Definition sample_page : ChatPage Message.t := setInput "hello" initial_page.

Definition TEXT_MESSAGE_END : Event.t :=
  Event.mk "TEXT_MESSAGE_END" "" "" "" "" "".
Definition RUN_FINISHED : Event.t := Event.mk "RUN_FINISHED" "" "" "" "" "".

(** An answer interrupted by a tool call. *)
Definition sample_answer : list Event.t :=
  [TEXT_MESSAGE_CONTENT "Hi"; TOOL_CALL_START "t1" "search";
   TEXT_MESSAGE_CONTENT " there"; TEXT_MESSAGE_END].

(** Argument deltas of two calls, interleaved. *)
Definition sample_args : list Event.t :=
  [TOOL_CALL_ARGS "a" "q="; TOOL_CALL_ARGS "b" "id="; TOOL_CALL_ARGS "a" "cats";
   TOOL_CALL_ARGS "b" "7"].

(** ** The other handlers of the page *)

(** What [onScroll] reads from the element of [chatRef]; the lengths are
    taken as whole pixels. *)
Record ScrollMetrics := {
  scrollHeight : Z;
  clientHeight : Z;
  scrollTop : Z
}.

Definition SCROLL_THRESHOLD : Z := 24.

(** [onScroll]; [None] is a [chatRef.current] that is not set. *)
Definition onScroll {M} (chatRef_current : option ScrollMetrics)
    (st : ChatPage M) : ChatPage M :=
  match chatRef_current with
  | None => st
  | Some el =>
      let distanceFromBottom :=
        scrollHeight el - clientHeight el - scrollTop el in
      let nearBottom := distanceFromBottom <=? SCROLL_THRESHOLD in
      let st := setIsNearBottom nearBottom st in
      if negb nearBottom && (100 <? distanceFromBottom)
      then setUserHasScrolled true st
      else if nearBottom then setUserHasScrolled false st
      else st
  end.

(** The state change of the "Jump to latest" button. *)
Definition jumpToLatest {M} (st : ChatPage M) : ChatPage M :=
  setUserHasScrolled false st.

(** The "New Chat" button; [initial] is [initialMessages] as the array
    holds it. *)
Definition newChat {M} (initial : list M) (st : ChatPage M) : ChatPage M :=
  let st := setMessages (fun _ => initial) st in
  let st := setToolCalls (fun _ => []) st in
  setCurrentStatus "online" st.

Definition flip_expanded (tool : ToolCall.t) : ToolCall.t :=
  ToolCall.mk (ToolCall.id tool) (ToolCall.name tool) (ToolCall.args tool)
              (ToolCall.result tool) (ToolCall.status tool)
              (negb (ToolCall.expanded tool)).

(** The click on the header of a tool call:
    [prev.map(tool => tool.id === tc.id ? { ...tool, expanded: !tool.expanded } : tool)] *)
Definition toggle_expanded (id : string) (prev : list ToolCall.t)
  : list ToolCall.t :=
  map_matching id flip_expanded prev.

(** [disabled] of the send button. *)
Definition send_disabled {M} (st : ChatPage M) : bool :=
  isLoading st || negb (JS.truthy (JS.trim (input st))).

(** What [handleKey] reads from the keyboard event. *)
Record KeyEvent := { key : string; shiftKey : bool }.

(** [isLastAssistantMsg] of the render loop, for the message [msg] at
    [index]. *)
Definition isLastAssistantMsg {M} (st : ChatPage M) (role : Role)
    (index : nat) : bool :=
  bool_decide (role = assistant)
  && (Z.of_nat index =? Z.of_nat (length (messages st)) - 1)
  && (0 <? Z.of_nat (length (toolCalls st))).

(** Whether the panel of tool calls is rendered above the message at
    [index]. *)
Definition tool_panel_shown (st : ChatPage Message.t) (index : nat)
    (msg : Message.t) : bool :=
  bool_decide (Message.role msg = assistant)
  && isLastAssistantMsg st (Message.role msg) index
  && (0 <? Z.of_nat (length (toolCalls st))).

(** The panels of a rendering, one flag per message. *)
Definition tool_panels (st : ChatPage Message.t) : list bool :=
  imap (tool_panel_shown st) (messages st).

Section KeyHandler.
Variable Date : nat -> Stamp.
Variable JSON_parse : string -> option Event.t.
Variable fetch : Request -> FetchResult.

(** [handleKey]: the state, the requests issued, and whether
    [preventDefault] was called. *)
Definition handleKey (e : KeyEvent) (st : ChatPage Message.t)
  : ChatPage Message.t * list Request * bool :=
  if bool_decide (key e = "Enter") && negb (shiftKey e)
  then (sendMessage Date JSON_parse fetch st, true)
  else (st, [], false).
End KeyHandler.

(** ** Vocabulary of the further statements *)

(** The event that the read loop applies for a frame, if any. *)
Definition decode (JSON_parse : string -> option Event.t) (part : string)
  : option Event.t :=
  if JS.startsWith "data: " part then JSON_parse (JS.slice 6 part) else None.

Definition events_of (JSON_parse : string -> option Event.t)
    (parts : list string) : list Event.t :=
  omap (decode JSON_parse) parts.

(** The text of a stream that carries [events], one frame per event, the
    payload of an event being [enc event]. *)
Definition wire (enc : Event.t -> string) (events : list Event.t) : string :=
  JS.unlines ((fun event => "data: " +:+ enc event) <$> events).

(** The types that the [switch] has a case for. *)
Definition known_types : list string :=
  ["RUN_STARTED"; "TEXT_MESSAGE_START"; "TEXT_MESSAGE_CONTENT";
   "TEXT_MESSAGE_END"; "TOOL_CALL_START"; "TOOL_CALL_ARGS";
   "TOOL_CALL_RESULT"; "RUN_FINISHED"; "RUN_ERROR"].

(** A frame that the loop passes over: it has not the prefix, or its
    payload does not parse, or the type of its event is not known. *)
Definition passed_over (JSON_parse : string -> option Event.t)
    (part : string) : Prop :=
  match decode JSON_parse part with
  | None => True
  | Some event => Event.type event ∉ known_types
  end.

Definition is_run_error (event : Event.t) : Prop :=
  Event.type event = "RUN_ERROR".

(** The events that arrive before the first [TEXT_MESSAGE_START]. *)
Fixpoint before_first_start (events : list Event.t) : list Event.t :=
  match events with
  | [] => []
  | event :: rest =>
      if decide (is_start event) then [] else event :: before_first_start rest
  end.

(** What identifies a tool call on the screen: id, name and whether it is
    expanded. *)
Definition identity_of (tc : ToolCall.t) : string * string * bool :=
  (ToolCall.id tc, ToolCall.name tc, ToolCall.expanded tc).

(** The scroll flags agree: near the bottom, the user has not scrolled. *)
Definition scroll_consistent {M} (st : ChatPage M) : Prop :=
  isNearBottom st = true -> userHasScrolled st = false.

(** The message of the user that [sendMessage] appends. *)
Definition userMsg_of (Date : nat -> Stamp) (st : ChatPage Message.t)
  : Message.t :=
  Message.mk (now (Date 0%nat)) user (JS.trim (input st))
             (toLocaleTimeString (Date 0%nat)).

(** A payload format for the examples that [sample_parse] reads back. *)
Definition sample_enc (event : Event.t) : string :=
  if decide (Event.type event = "TEXT_MESSAGE_CONTENT")
  then "C:" +:+ Event.delta event
  else Event.type event.

(** The events of a short answer. *)
Definition sample_events : list Event.t :=
  [RUN_STARTED; TEXT_MESSAGE_START; TEXT_MESSAGE_CONTENT "Hi"].

(** The text of [sample_events] on the wire, cut in the middle of a
    line. *)
Definition sample_chunks : list string :=
  [line "data: RUN_STARTED" +:+ "data: TEXT_MESS";
   line "AGE_START" +:+ line "data: C:Hi"].

(** A server that answers with [sample_chunks]. *)
Definition sample_stream (request : Request) : FetchResult :=
  Resolves true 200
    (Some {| chunks := sample_chunks; ending := EndOfStream |}).

(** An exchange in which one tool call has returned. *)
Definition sample_exchange : Exchange :=
  reduce_all sample_Date
    [TOOL_CALL_START "t1" "search"; TOOL_CALL_ARGS "t1" "q=cats";
     TOOL_CALL_RESULT "t1" "3 results"]
    (exchange_start sample_Date sample_page).

(** A view scrolled sixty pixels up from the bottom. *)
Definition sample_scroll : ScrollMetrics :=
  {| scrollHeight := 1000; clientHeight := 400; scrollTop := 540 |}.

(** * Properties *)

(** ** Sample runs *)

Example split_two_lines :
  JS.split (line "data: a" +:+ line "data: b" +:+ "da") =
    ["data: a"; "data: b"; "da"].
Proof. reflexivity. Qed.

Example split_chunk_partial :
  split_chunk "da" (line "ta: x" +:+ "data") = (["data: x"], "data").
Proof. reflexivity. Qed.

Example split_chunk_blank :
  split_chunk "" (line "data: x") = (["data: x"], "").
Proof. reflexivity. Qed.

Example trim_spaces : JS.trim "  hi there  " = "hi there".
Proof. reflexivity. Qed.

(** The first example of the specification: a plain answer. *)
Example plain_answer :
  let x := reduce_all sample_Date
             [RUN_STARTED; TEXT_MESSAGE_START; TEXT_MESSAGE_CONTENT "Hi";
              TEXT_MESSAGE_CONTENT " there"; TEXT_MESSAGE_END; RUN_FINISHED]
             (exchange_start sample_Date sample_page) in
  last (transcript x) =
    Some (Message.mk 1700000000002 assistant "Hi there" "11:01 AM")
  /\ currentStatus (page x) = "online"
  /\ toolCalls (page x) = [].
Proof. by vm_compute. Qed.

(** The second example of the specification: one tool call. *)
Example one_tool_call :
  let x := reduce_all sample_Date
             [TOOL_CALL_START "1" "search"; TOOL_CALL_ARGS "1" "q=cats";
              TOOL_CALL_RESULT "1" "3 results"]
             (exchange_start sample_Date sample_page) in
  toolCalls (page x) =
    [ToolCall.mk "1" "search" "q=cats" "3 results" completed false].
Proof. by vm_compute. Qed.

(** A content delta after [TEXT_MESSAGE_START] does reach the transcript. *)
Example delta_after_start_in_transcript :
  delta_in_transcript "Hi"
    (reduce_all sample_Date [TEXT_MESSAGE_START; TEXT_MESSAGE_CONTENT "Hi"]
                (exchange_start sample_Date sample_page)).
Proof.
  unfold delta_in_transcript. apply Exists_exists.
  exists (Message.mk 1700000000002 assistant "Hi" "11:01 AM").
  split; [|by vm_compute].
  replace (transcript _) with
    (initialMessages ++
       [Message.mk 1700000000000 user "hello" "11:01 AM";
        Message.mk 1700000000002 assistant "Hi" "11:01 AM"]) by reflexivity.
  cbn. do 2 right. left.
Qed.

(** A whole exchange over a stream cut in the middle of its last line. *)
Example exchange_over_cut_stream :
  sendMessage sample_Date sample_parse cut_stream sample_page =
    ({| messages :=
          initialMessages ++
            [Message.mk 1700000000000 user "hello" "11:01 AM";
             Message.mk 1700000000002 assistant "" "11:01 AM"];
        input := ""; isLoading := false; currentStatus := "online";
        toolCalls := []; userHasScrolled := false; isNearBottom := true |},
     [request_for "hello"]).
Proof. by vm_compute. Qed.

(** ** Strings *)

Lemma app_nil_l (s : string) : "" +:+ s = s.
Proof. reflexivity. Qed.

Lemma app_cons (c : ascii) (s r : string) :
  String c s +:+ r = String c (s +:+ r).
Proof. reflexivity. Qed.

Lemma app_nil_r (s : string) : s +:+ "" = s.
Proof. induction s as [|c s IH]; [done|]. by rewrite app_cons, IH. Qed.

Lemma app_assoc (s r t : string) : (s +:+ r) +:+ t = s +:+ (r +:+ t).
Proof. induction s as [|c s IH]; [done|]. by rewrite !app_cons, IH. Qed.

Lemma concat_app (cs ds : list string) :
  JS.concat (cs ++ ds) = JS.concat cs +:+ JS.concat ds.
Proof.
  induction cs as [|c cs IH]; simpl; [done|]. by rewrite IH, app_assoc.
Qed.

(** ** [split] *)

Lemma split_cons_inv (s : string) : exists p ps, JS.split s = p :: ps.
Proof.
  induction s as [|c s [p [ps IH]]]; simpl; [by eauto|].
  destruct (JS.is_LF c); [by eauto|]. rewrite IH. simpl. eauto.
Qed.

Lemma removelast_cons_cons {A} (a b : A) (l : list A) :
  removelast (a :: b :: l) = a :: removelast (b :: l).
Proof. reflexivity. Qed.

(** Splitting a text that is continued: the complete lines of the first
    part stay as they are, and the last fragment is continued. *)
Lemma split_app (s r : string) :
  JS.split (s +:+ r) =
    removelast (JS.split s) ++ JS.split (JS.or_empty (last (JS.split s)) +:+ r).
Proof.
  induction s as [|c s IH]; [done|].
  rewrite app_cons. simpl. rewrite IH.
  destruct (split_cons_inv s) as [p [ps Hs]]. rewrite Hs.
  destruct (JS.is_LF c) eqn:Hc.
  - by rewrite removelast_cons_cons, last_cons_cons.
  - destruct ps as [|q ps]; simpl.
    + by rewrite Hc.
    + done.
Qed.

Lemma split_no_LF (s : string) :
  Forall (fun part => JS.has_LF part = false) (JS.split s).
Proof.
  induction s as [|c s IH]; simpl; [by repeat constructor|].
  destruct (JS.is_LF c) eqn:Hc; [by constructor|].
  destruct IH as [|p ps Hp Hps]; simpl.
  - repeat constructor. simpl. by rewrite Hc.
  - constructor; [|done]. simpl. by rewrite Hc.
Qed.

Lemma split_without_LF (s : string) :
  JS.has_LF s = false -> JS.split s = [s].
Proof.
  induction s as [|c s IH]; simpl; [done|].
  intros [Hc Hs]%orb_false_elim. rewrite Hc, (IH Hs). done.
Qed.

Lemma last_split_no_LF (s : string) :
  JS.has_LF (JS.or_empty (last (JS.split s))) = false.
Proof.
  destruct (last (JS.split s)) as [p|] eqn:Hl; [|done].
  apply last_Some_elem_of in Hl.
  pose proof (split_no_LF s) as Hall.
  rewrite Forall_forall in Hall. by apply Hall.
Qed.

(** The frames yielded for a list of chunks are the complete lines of the
    concatenated text, and the buffer left is its last fragment. *)
Lemma frames_of_chunks_split (buffer : string) (chunks : list string) :
  JS.has_LF buffer = false ->
  frames_of_chunks buffer chunks =
    (removelast (JS.split (buffer +:+ JS.concat chunks)),
     JS.or_empty (last (JS.split (buffer +:+ JS.concat chunks)))).
Proof.
  revert buffer. induction chunks as [|value rest IH]; intros buffer Hb; simpl.
  - rewrite app_nil_r, (split_without_LF _ Hb). done.
  - unfold split_chunk, JS.pop. rewrite (IH _ (last_split_no_LF _)).
    rewrite <- app_assoc, (split_app (buffer +:+ value)).
    destruct (split_cons_inv
      (JS.or_empty (last (JS.split (buffer +:+ value))) +:+ JS.concat rest))
      as [p [ps Hs]].
    rewrite Hs, removelast_app by done.
    by rewrite last_app_cons.
Qed.

Lemma unlines_cons (f : string) (fs : list string) :
  JS.unlines (f :: fs) = f +:+ String JS.LF (JS.unlines fs).
Proof. reflexivity. Qed.

(** Joining the complete lines with line breaks and appending the last
    fragment gives the text back. *)
Lemma unlines_split (s : string) :
  JS.unlines (removelast (JS.split s)) +:+ JS.or_empty (last (JS.split s)) = s.
Proof.
  induction s as [|c s IH]; [done|]. cbn [JS.split].
  destruct (split_cons_inv s) as [p [ps Hs]]. rewrite Hs in *.
  destruct (JS.is_LF c) eqn:Hc.
  - rewrite removelast_cons_cons, last_cons_cons, unlines_cons.
    rewrite app_nil_l, app_cons, IH.
    apply bool_decide_eq_true in Hc. by rewrite Hc.
  - destruct ps as [|q ps]; cbn [JS.hd_cons].
    + cbn in *. rewrite app_nil_l in *. by rewrite IH.
    + rewrite removelast_cons_cons, last_cons_cons, unlines_cons in *.
      rewrite !app_cons, app_assoc in *. by rewrite IH.
Qed.

Lemma split_line_break (s r : string) :
  JS.split (s +:+ String JS.LF r) = JS.split s ++ JS.split r.
Proof.
  induction s as [|c s IH].
  - rewrite app_nil_l. reflexivity.
  - rewrite app_cons. cbn [JS.split]. rewrite IH.
    destruct (JS.is_LF c); [done|].
    by destruct (split_cons_inv s) as [p [ps ->]].
Qed.

(** ** The read loop *)

Section ReadLoop.
Variable Date : nat -> Stamp.
Variable JSON_parse : string -> option Event.t.

Lemma handle_parts_app (parts later : list string) (x : Exchange) :
  handle_parts Date JSON_parse (parts ++ later) x =
    handle_parts Date JSON_parse later (handle_parts Date JSON_parse parts x).
Proof. unfold handle_parts. apply foldl_app. Qed.

(** The loop hands to [handle_part] the frames of the splitter, in order. *)
Lemma read_loop_frames (chunks : list string) (buffer : string) (x : Exchange) :
  read_loop Date JSON_parse chunks buffer x =
    (handle_parts Date JSON_parse (frames_of_chunks buffer chunks).1 x,
     (frames_of_chunks buffer chunks).2).
Proof.
  revert buffer x. induction chunks as [|value rest IH]; intros buffer x.
  - done.
  - cbn [read_loop frames_of_chunks].
    destruct (split_chunk buffer value) as [parts buffer'].
    rewrite IH. destruct (frames_of_chunks buffer' rest) as [later b].
    cbn [fst snd]. by rewrite handle_parts_app.
Qed.
End ReadLoop.

(** C5. Chunk-boundary independence of the frame splitter: two ways of
    cutting one text into chunks yield the same frames in the same order
    and leave the same pending fragment, and the read loop reaches the same
    state; the frames contain no line break, and the frames joined by line
    breaks followed by the pending fragment are the text, so that nothing is
    split, dropped or duplicated. *)
Theorem frames_independent_of_chunking (chunks1 chunks2 : list string) :
  JS.concat chunks1 = JS.concat chunks2 ->
  frames_of_chunks "" chunks1 = frames_of_chunks "" chunks2
  /\ (forall Date JSON_parse x,
        read_loop Date JSON_parse chunks1 "" x =
        read_loop Date JSON_parse chunks2 "" x)
  /\ JS.unlines (frames_of_chunks "" chunks1).1
       +:+ (frames_of_chunks "" chunks1).2 = JS.concat chunks1
  /\ Forall (fun frame => JS.has_LF frame = false)
            (frames_of_chunks "" chunks1).1
  /\ JS.has_LF (frames_of_chunks "" chunks1).2 = false.
Proof.
  intros Heq.
  assert (frames_of_chunks "" chunks1 = frames_of_chunks "" chunks2) as Hfr.
  { rewrite !frames_of_chunks_split by done. by rewrite Heq. }
  split; [done|]. split.
  { intros Date JSON_parse x. by rewrite !read_loop_frames, Hfr. }
  rewrite frames_of_chunks_split by done. cbn [fst snd]. rewrite app_nil_l.
  split; [apply unlines_split|]. split; [|apply last_split_no_LF].
  pose proof (split_no_LF (JS.concat chunks1)) as Hall.
  destruct (split_cons_inv (JS.concat chunks1)) as [p [ps Hs]].
  rewrite Hs in *. clear Hs. revert p Hall.
  induction ps as [|q ps IH]; intros p Hall; [constructor|].
  rewrite removelast_cons_cons. inversion Hall; subst.
  constructor; [done|]. by apply IH.
Qed.

(** C9. The fragment after the last line break is never handed to
    [handle_part]: when the stream ends, the loop has handled the lines
    before the last line break and nothing else, the fragment is left in
    [buffer], and the [try] block returns a state that does not depend on
    it.  A text without any line break changes nothing. *)
Theorem unterminated_tail_is_discarded
    (Date : nat -> Stamp) (JSON_parse : string -> option Event.t)
    (fetch : Request -> FetchResult)
    (chunks : list string) (tail : string) :
  JS.has_LF tail = false ->
  (forall body x,
     JS.concat chunks = body +:+ String JS.LF tail ->
     read_loop Date JSON_parse chunks "" x =
       (handle_parts Date JSON_parse (JS.split body) x, tail))
  /\ (forall x,
        JS.concat chunks = tail ->
        read_loop Date JSON_parse chunks "" x = (x, tail))
  /\ (forall body userPrompt status p t,
        JS.concat chunks = body +:+ String JS.LF tail ->
        fetch (request_for userPrompt) =
          Resolves true status
            (Some {| chunks := chunks; ending := EndOfStream |}) ->
        try_block Date JSON_parse fetch userPrompt p t =
          let x := handle_parts Date JSON_parse (JS.split body)
                     (open_stream Date p t) in
          (Returns, freeze x, tick x)).
Proof.
  intros Htail.
  assert (forall body x,
     JS.concat chunks = body +:+ String JS.LF tail ->
     read_loop Date JSON_parse chunks "" x =
       (handle_parts Date JSON_parse (JS.split body) x, tail)) as Hloop.
  { intros body x Hc. rewrite read_loop_frames.
    rewrite frames_of_chunks_split by done. rewrite app_nil_l, Hc.
    rewrite split_line_break, (split_without_LF _ Htail).
    cbn [fst snd]. rewrite removelast_last, last_snoc. done. }
  split; [done|]. split.
  - intros x Hc. rewrite read_loop_frames.
    rewrite frames_of_chunks_split by done. rewrite app_nil_l, Hc.
    by rewrite (split_without_LF _ Htail).
  - intros body userPrompt status p t Hc Hf. unfold try_block.
    rewrite Hf. simpl. by rewrite (Hloop body).
Qed.

(** ** The [switch]: one equation per case *)

Section ReducerFacts.
Variable Date : nat -> Stamp.

Ltac switch H := unfold reduce; rewrite H; reflexivity.

Lemma reduce_TEXT_MESSAGE_START (event : Event.t) (x : Exchange) :
  Event.type event = "TEXT_MESSAGE_START" ->
  reduce Date event x =
    let x := on_page (setCurrentStatus "typing...") x in
    if negb (messageAdded x) then
      set_messageAdded true
        (on_page (setMessages (fun prev => prev ++ [AssistantMsg])) x)
    else x.
Proof. intros H. switch H. Qed.

Lemma reduce_TEXT_MESSAGE_CONTENT (event : Event.t) (x : Exchange) :
  Event.type event = "TEXT_MESSAGE_CONTENT" ->
  reduce Date event x =
    let x := set_assistantMsg
               (Message.append_content (Event.delta event) (assistantMsg x)) x in
    on_page (setMessages (replace_last (assistantMsg x))) x.
Proof. intros H. switch H. Qed.

Lemma reduce_TOOL_CALL_START (event : Event.t) (x : Exchange) :
  Event.type event = "TOOL_CALL_START" ->
  reduce Date event x =
    on_page (setToolCalls (tool_call_start event))
      (on_page (setCurrentStatus
         ("calling " +:+ Event.toolCallName event +:+ "...")) x).
Proof. intros H. switch H. Qed.

Lemma reduce_TOOL_CALL_ARGS (event : Event.t) (x : Exchange) :
  Event.type event = "TOOL_CALL_ARGS" ->
  reduce Date event x =
    on_page (setToolCalls
      (map_matching (Event.toolCallId event)
                    (add_args (Event.delta event)))) x.
Proof. intros H. switch H. Qed.

Lemma reduce_RUN_ERROR (event : Event.t) (x : Exchange) :
  Event.type event = "RUN_ERROR" ->
  reduce Date event x =
    let x := on_page (setIsLoading false)
               (on_page (setCurrentStatus "error") x) in
    if negb (messageAdded x) then
      let msg := error_message Date x ("Error: " +:+ Event.message event) in
      next_tick (on_page (setMessages (fun prev => prev ++ [Own msg])) x)
    else x.
Proof. intros H. switch H. Qed.

Lemma reduce_all_cons (event : Event.t) (events : list Event.t) (x : Exchange) :
  reduce_all Date (event :: events) x =
    reduce_all Date events (reduce Date event x).
Proof. reflexivity. Qed.

Lemma reduce_all_app (events later : list Event.t) (x : Exchange) :
  reduce_all Date (events ++ later) x =
    reduce_all Date later (reduce_all Date events x).
Proof. unfold reduce_all. apply foldl_app. Qed.

(** *** The local variable [assistantMsg] *)

Lemma assistantMsg_reduce (event : Event.t) (x : Exchange) :
  assistantMsg (reduce Date event x) =
    if decide (Event.type event = "TEXT_MESSAGE_CONTENT")
    then Message.append_content (Event.delta event) (assistantMsg x)
    else assistantMsg x.
Proof.
  unfold reduce.
  repeat case_decide; cbn; try destruct (messageAdded x); cbn;
    congruence.
Qed.
End ReducerFacts.

(** ** The assistant message of an exchange *)

Section AssistantMessage.
Variable Date : nat -> Stamp.

Lemma text_of_cons (event : Event.t) (events : list Event.t) :
  text_of (event :: events) =
    if decide (is_content event)
    then Event.delta event +:+ text_of events
    else text_of events.
Proof.
  unfold text_of. rewrite filter_cons. by case_decide.
Qed.

Lemma text_of_app (events later : list Event.t) :
  text_of (events ++ later) = text_of events +:+ text_of later.
Proof.
  unfold text_of. by rewrite filter_app, fmap_app, concat_app.
Qed.

Lemma text_of_no_content (events : list Event.t) :
  Forall (fun event => ~ is_content event) events -> text_of events = "".
Proof.
  induction 1 as [|event events Hev _ IH]; [done|].
  rewrite text_of_cons. by case_decide.
Qed.

(** [assistantMsg] collects every content delta, whatever else arrives. *)
Lemma assistantMsg_reduce_all (events : list Event.t) (x : Exchange) :
  assistantMsg (reduce_all Date events x) =
    Message.append_content (text_of events) (assistantMsg x).
Proof.
  revert x. induction events as [|event events IH]; intros x.
  - destruct (assistantMsg x) as [i r c t] eqn:Ha. cbn. rewrite Ha.
    unfold Message.append_content. cbn. by rewrite app_nil_r.
  - rewrite reduce_all_cons, IH, assistantMsg_reduce, text_of_cons.
    unfold is_content. case_decide; [|done].
    unfold Message.append_content. cbn. by rewrite app_assoc.
Qed.

(** *** What the array holds once the message has been appended *)

Lemma replace_last_snoc (msg : Message.t) (older : list MessageRef)
    (r : MessageRef) :
  Message.role (deref msg r) = assistant ->
  replace_last msg (older ++ [r]) = older ++ [Own msg].
Proof.
  intros Hrole. unfold replace_last.
  rewrite length_app. cbn [length].
  replace (Z.to_nat (Z.of_nat (length older + 1) - 1)) with (length older + 0)%nat
    by lia.
  rewrite lookup_app_r, Nat.add_0_r by lia.
  replace (length older - length older)%nat with 0%nat by lia.
  cbn [lookup list_lookup].
  rewrite bool_decide_eq_true_2 by done.
  replace (0 <=? Z.of_nat (length older + 1) - 1) with true
    by (symmetry; apply Z.leb_le; lia).
  cbn [andb]. rewrite insert_app_r_alt by lia.
  by replace (length older - length older)%nat with 0%nat by lia.
Qed.

Lemma replace_last_other (msg : Message.t) (older : list MessageRef)
    (r : MessageRef) :
  Message.role (deref msg r) <> assistant ->
  replace_last msg (older ++ [r]) = older ++ [r].
Proof.
  intros Hrole. unfold replace_last.
  rewrite length_app. cbn [length].
  replace (Z.to_nat (Z.of_nat (length older + 1) - 1)) with (length older + 0)%nat
    by lia.
  rewrite lookup_app_r, Nat.add_0_r by lia.
  replace (length older - length older)%nat with 0%nat by lia.
  cbn [lookup list_lookup].
  rewrite bool_decide_eq_false_2 by done.
  by rewrite andb_false_r.
Qed.

Lemma replace_last_nil (msg : Message.t) : replace_last msg [] = [].
Proof. reflexivity. Qed.

Lemma replace_last_length (msg : Message.t) (prev : list MessageRef) :
  length (replace_last msg prev) = length prev.
Proof.
  unfold replace_last. destruct (prev !! _); [|done].
  destruct (_ && _); [|done]. by rewrite length_insert.
Qed.

Lemma appended_reduce (older : list MessageRef) (event : Event.t)
    (x : Exchange) :
  appended older x -> appended older (reduce Date event x).
Proof.
  intros (Hadded & Hrole & r & Hmsgs & Hr).
  unfold appended. rewrite assistantMsg_reduce.
  unfold reduce. repeat case_decide; try congruence; cbn;
    rewrite ?Hadded; cbn;
    try (split; [done|]; split; [done|]; by exists r).
  split; [done|]. split; [done|].
  exists (Own (Message.append_content (Event.delta event) (assistantMsg x))).
  split; [|done]. rewrite Hmsgs. apply replace_last_snoc.
  destruct r; cbn in *; [by rewrite Hr|done].
Qed.

Lemma appended_reduce_all (older : list MessageRef) (events : list Event.t)
    (x : Exchange) :
  appended older x -> appended older (reduce_all Date events x).
Proof.
  revert x. induction events as [|event events IH]; intros x Hx; [done|].
  rewrite reduce_all_cons. by apply IH, appended_reduce.
Qed.

Lemma appended_transcript (older : list MessageRef) (x : Exchange) :
  appended older x ->
  transcript x = (deref (assistantMsg x) <$> older) ++ [assistantMsg x].
Proof.
  intros (_ & _ & r & Hmsgs & Hr). unfold transcript.
  rewrite Hmsgs, fmap_app. cbn. by rewrite Hr.
Qed.
End AssistantMessage.

(** ** States reached by an exchange *)

Section Reachable.
Variable Date : nat -> Stamp.

Lemma deref_Own (msg msg' : Message.t) (l : list MessageRef) :
  Forall is_Own l -> deref msg <$> l = deref msg' <$> l.
Proof.
  induction 1 as [|r l Hr _ IH]; [done|].
  rewrite !fmap_cons, IH. by destruct r.
Qed.

Lemma Forall_Own_thaw (l : list Message.t) : Forall is_Own (Own <$> l).
Proof. induction l; by constructor. Qed.

Lemma deref_thaw (msg : Message.t) (l : list Message.t) :
  deref msg <$> (Own <$> l) = l.
Proof. induction l as [|m l IH]; [done|]. by rewrite !fmap_cons, IH. Qed.

Lemma replace_last_Own (msg : Message.t) (prev : list MessageRef) :
  Forall is_Own prev -> Forall is_Own (replace_last msg prev).
Proof.
  intros Hall. unfold replace_last. destruct (prev !! _); [|done].
  destruct (_ && _); [|done]. by apply Forall_insert.
Qed.

Lemma coherent_start (st : ChatPage Message.t) :
  coherent (exchange_start Date st).
Proof. split; [done|]. cbn. apply Forall_Own_thaw. Qed.

Lemma coherent_reduce (event : Event.t) (x : Exchange) :
  coherent x -> coherent (reduce Date event x).
Proof.
  intros [Hrole Hx]. destruct (messageAdded x) eqn:Hadded.
  - destruct Hx as (older & Hown & Happ).
    pose proof (appended_reduce Date older event x Happ) as Happ'.
    destruct Happ' as (Hadded' & Hrole' & Hlast).
    split; [done|]. rewrite Hadded'. by exists older.
  - split.
    { rewrite assistantMsg_reduce. by case_decide. }
    unfold reduce.
    repeat case_decide; cbn; rewrite ?Hadded; cbn; rewrite ?Hadded;
      try done.
    + exists (messages (page x)). split; [done|].
      repeat split; [done|]. by exists AssistantMsg.
    + by apply replace_last_Own.
    + apply Forall_app. split; [done|]. by repeat constructor.
Qed.

Lemma coherent_reduce_all (events : list Event.t) (x : Exchange) :
  coherent x -> coherent (reduce_all Date events x).
Proof.
  revert x. induction events as [|event events IH]; intros x Hx; [done|].
  rewrite reduce_all_cons. by apply IH, coherent_reduce.
Qed.

(** *** The flag [messageAdded] *)

Lemma messageAdded_reduce (event : Event.t) (x : Exchange) :
  messageAdded (reduce Date event x) =
    if decide (is_start event) then true else messageAdded x.
Proof.
  unfold reduce, is_start.
  repeat case_decide; try congruence; cbn; try done;
    destruct (messageAdded x) eqn:Hadded; cbn; by rewrite ?Hadded.
Qed.

Lemma messageAdded_without_start (events : list Event.t) (x : Exchange) :
  Forall (fun event => ~ is_start event) events ->
  messageAdded (reduce_all Date events x) = messageAdded x.
Proof.
  intros Hall. revert x.
  induction Hall as [|event events Hev _ IH]; intros x; [done|].
  rewrite reduce_all_cons, IH, messageAdded_reduce. by case_decide.
Qed.

Lemma messageAdded_stays (events : list Event.t) (x : Exchange) :
  messageAdded x = true -> messageAdded (reduce_all Date events x) = true.
Proof.
  revert x. induction events as [|event events IH]; intros x Hx; [done|].
  rewrite reduce_all_cons. apply IH. rewrite messageAdded_reduce.
  by case_decide.
Qed.

Lemma messageAdded_after_start (events : list Event.t) (x : Exchange) :
  Exists is_start events -> messageAdded (reduce_all Date events x) = true.
Proof.
  intros Hex. revert x.
  induction Hex as [event events Hev|event events _ IH]; intros x.
  - rewrite reduce_all_cons. apply messageAdded_stays.
    rewrite messageAdded_reduce. by case_decide.
  - rewrite reduce_all_cons. apply IH.
Qed.
End Reachable.

Lemma messages_freeze (x : Exchange) : messages (freeze x) = transcript x.
Proof. reflexivity. Qed.

(** The text of a run of content events is the concatenation of their
    deltas. *)
Lemma text_of_contents (deltas : list string) :
  text_of (TEXT_MESSAGE_CONTENT <$> deltas) = JS.concat deltas.
Proof.
  induction deltas as [|d deltas IH]; [done|].
  rewrite fmap_cons, text_of_cons, decide_True by done. cbn. by rewrite IH.
Qed.

(** C1. In an exchange whose events contain a [TEXT_MESSAGE_START], with no
    content event before it, the transcript ends with the assistant message
    of the exchange, and its content is the concatenation, in arrival order,
    of the deltas of the [TEXT_MESSAGE_CONTENT] events that follow, whatever
    other events are interleaved.  When no [TEXT_MESSAGE_START] came
    earlier, the messages before it are those of the transcript at the
    moment the [TEXT_MESSAGE_START] arrived. *)
Theorem content_is_concatenation_of_deltas
    (Date : nat -> Stamp) (st : ChatPage Message.t)
    (pre : list Event.t) (start : Event.t) (post : list Event.t) :
  is_start start ->
  Forall (fun event => ~ is_content event) pre ->
  let x := reduce_all Date (pre ++ start :: post) (exchange_start Date st) in
  exists older,
    transcript x =
      older ++ [Message.mk (now (Date 1%nat) + 1) assistant (text_of post)
                           (toLocaleTimeString (Date 1%nat))]
    /\ (Forall (fun event => ~ is_start event) pre ->
        older = transcript (reduce_all Date pre (exchange_start Date st))).
Proof.
  intros Hstart Hpre x.
  set (x1 := reduce_all Date pre (exchange_start Date st)).
  set (x2 := reduce Date start x1).
  assert (coherent x1) as [Hrole1 Hx1]
    by apply coherent_reduce_all, coherent_start.
  assert (exists older, appended older x2 /\ Forall is_Own older
            /\ (messageAdded x1 = false -> older = messages (page x1)))
    as (older & Happ & Hown & Holder).
  { destruct (messageAdded x1) eqn:Hadded.
    - destruct Hx1 as (older & Hown & Happ). exists older.
      split; [by apply appended_reduce|]. by split.
    - exists (messages (page x1)). split; [|by split].
      unfold x2. rewrite reduce_TEXT_MESSAGE_START by done.
      cbn. rewrite Hadded. cbn. repeat split; [done|]. by exists AssistantMsg. }
  assert (x = reduce_all Date post x2) as Hx.
  { unfold x, x2, x1. by rewrite reduce_all_app, reduce_all_cons. }
  assert (assistantMsg x =
          Message.mk (now (Date 1%nat) + 1) assistant (text_of post)
                     (toLocaleTimeString (Date 1%nat))) as Hmsg.
  { unfold x. rewrite assistantMsg_reduce_all, text_of_app, text_of_cons.
    rewrite (text_of_no_content pre) by done.
    unfold is_start, is_content in *. case_decide; [congruence|]. done. }
  exists (deref (assistantMsg x) <$> older). split.
  - rewrite <- Hmsg. apply appended_transcript.
    rewrite Hx. by apply appended_reduce_all.
  - intros Hnostart.
    assert (messageAdded x1 = false) as Hadded
      by (unfold x1; by rewrite messageAdded_without_start).
    rewrite (Holder Hadded). unfold transcript. apply deref_Own.
    by rewrite Hadded in Hx1.
Qed.

(** ** Events that arrive before [TEXT_MESSAGE_START] *)

Section BeforeStart.
Variable Date : nat -> Stamp.

(** The state of an exchange in which no [TEXT_MESSAGE_START] arrived. *)
Lemma before_start (st : ChatPage Message.t) (pre : list Event.t) :
  Forall (fun event => ~ is_start event) pre ->
  let x := reduce_all Date pre (exchange_start Date st) in
  messageAdded x = false /\ Forall is_Own (messages (page x)).
Proof.
  intros Hpre x.
  assert (messageAdded x = false) as Hadded
    by (unfold x; by rewrite messageAdded_without_start).
  split; [done|].
  assert (coherent x) as [_ Hx] by apply coherent_reduce_all, coherent_start.
  by rewrite Hadded in Hx.
Qed.

Lemma replace_last_not_assistant (msg msg0 : Message.t)
    (prev : list MessageRef) :
  Forall is_Own prev ->
  (forall m, last (deref msg0 <$> prev) = Some m ->
             Message.role m <> assistant) ->
  replace_last msg prev = prev.
Proof.
  destruct prev as [|r prev _] using rev_ind; [done|].
  intros [_ Hr]%Forall_app Hlast.
  rewrite fmap_app in Hlast. cbn in Hlast. rewrite last_snoc in Hlast.
  specialize (Hlast _ eq_refl). apply replace_last_other.
  inversion Hr as [|? ? Hown _]; subst. by destruct r.
Qed.
End BeforeStart.

(** C4. A [RUN_ERROR] sets the status to "error".  When no
    [TEXT_MESSAGE_START] arrived before it, it appends exactly one message
    to the transcript: an assistant message whose content is "Error: "
    followed by the error text of the event.  When a [TEXT_MESSAGE_START]
    arrived before it, the transcript is left as it is. *)
Theorem run_error_appends_one_message_unless_started
    (Date : nat -> Stamp) (st : ChatPage Message.t)
    (pre : list Event.t) (event : Event.t) :
  Event.type event = "RUN_ERROR" ->
  let x := reduce_all Date pre (exchange_start Date st) in
  let x' := reduce Date event x in
  currentStatus (page x') = "error"
  /\ (Forall (fun e => ~ is_start e) pre ->
      transcript x' =
        transcript x ++
          [Message.mk (now (Date (tick x)) + 2) assistant
                      ("Error: " +:+ Event.message event)
                      (toLocaleTimeString (Date (tick x)))])
  /\ (Exists is_start pre -> transcript x' = transcript x).
Proof.
  intros Htype x x'. unfold x'. rewrite reduce_RUN_ERROR by done.
  split; [|split].
  - cbn. by destruct (messageAdded x).
  - intros Hpre. destruct (before_start Date st pre Hpre) as [Hadded _].
    fold x in Hadded. cbn. rewrite Hadded. cbn.
    unfold transcript. cbn. by rewrite fmap_app.
  - intros Hpre.
    assert (messageAdded x = true) as Hadded
      by (unfold x; by apply messageAdded_after_start).
    cbn. by rewrite Hadded.
Qed.

(** C3, as the code has it.  A [TEXT_MESSAGE_CONTENT] that arrives before
    any [TEXT_MESSAGE_START] creates no message: the transcript keeps its
    length, and it is unchanged when its last message is not an assistant
    message.  The delta is appended to the content of the local object
    [assistantMsg], which is not in the transcript; a later
    [TEXT_MESSAGE_START] appends that object, with the deltas received so
    far. *)
Theorem content_before_start_is_kept_aside
    (Date : nat -> Stamp) (st : ChatPage Message.t)
    (pre : list Event.t) (event : Event.t) :
  is_content event ->
  Forall (fun e => ~ is_start e) pre ->
  let x := reduce_all Date pre (exchange_start Date st) in
  let x' := reduce Date event x in
  messageAdded x' = false
  /\ length (transcript x') = length (transcript x)
  /\ assistantMsg x' =
       Message.append_content (Event.delta event) (assistantMsg x)
  /\ ((forall msg, last (transcript x) = Some msg ->
                   Message.role msg <> assistant) ->
      transcript x' = transcript x)
  /\ (forall start, is_start start ->
        transcript (reduce Date start x') = transcript x' ++ [assistantMsg x']).
Proof.
  intros Hcontent Hpre x x'.
  destruct (before_start Date st pre Hpre) as [Hadded Hown]. fold x in Hadded, Hown.
  assert (messageAdded x' = false) as Hadded'.
  { unfold x'. rewrite messageAdded_reduce.
    unfold is_start, is_content in *. case_decide; [congruence|done]. }
  assert (assistantMsg x' =
          Message.append_content (Event.delta event) (assistantMsg x)) as Hmsg.
  { unfold x'. rewrite assistantMsg_reduce. by case_decide. }
  assert (messages (page x') =
          replace_last (assistantMsg x') (messages (page x))) as Hmsgs.
  { rewrite Hmsg. unfold x'. by rewrite reduce_TEXT_MESSAGE_CONTENT. }
  split; [done|]. split; [|split; [done|split]].
  - unfold transcript. by rewrite !length_fmap, Hmsgs, replace_last_length.
  - intros Hlast. unfold transcript in *. rewrite Hmsgs.
    rewrite (replace_last_not_assistant _ (assistantMsg x)) by done.
    by apply deref_Own.
  - intros start Hstart. rewrite reduce_TEXT_MESSAGE_START by done.
    cbn. rewrite Hadded'. cbn. unfold transcript. cbn.
    by rewrite fmap_app.
Qed.

(** C3, as stated, fails: at the start of an exchange the transcript ends
    with the message of the user, and a content delta that arrives first
    leaves the transcript as it is; no assistant message holds the delta. *)
Lemma content_delta_without_start_not_in_transcript :
  let x := exchange_start sample_Date (setInput "hello" initial_page) in
  let x' := reduce sample_Date (TEXT_MESSAGE_CONTENT "Hi") x in
  transcript x' =
    initialMessages ++ [Message.mk 1700000000000 user "hello" "11:01 AM"]
  /\ ~ delta_in_transcript "Hi" x'.
Proof.
  cbv zeta. split; [reflexivity|].
  unfold delta_in_transcript.
  replace (transcript _) with
    (initialMessages ++ [Message.mk 1700000000000 user "hello" "11:01 AM"])
    by reflexivity.
  cbn [initialMessages app].
  rewrite !Exists_cons, Exists_nil. cbn.
  intros [[_ H]|[[H _]|[]]]; [|done]. vm_compute in H. done.
Qed.

(** ** The tool-call registry *)

Section Registry.
Variable Date : nat -> Stamp.

Lemma ids_map_matching (id : string) (f : ToolCall.t -> ToolCall.t)
    (prev : list ToolCall.t) :
  (forall tc, ToolCall.id (f tc) = ToolCall.id tc) ->
  ids (map_matching id f prev) = ids prev.
Proof.
  intros Hf. unfold ids, map_matching. rewrite <- list_fmap_compose.
  apply list_fmap_ext. intros _ tc _. cbn. by case_decide.
Qed.

Lemma find_id_None (id : string) (prev : list ToolCall.t) :
  find_id id prev = None <-> id ∉ ids prev.
Proof.
  unfold find_id, ids. rewrite fmap_None, list_find_None.
  rewrite Forall_forall, list_elem_of_fmap. split.
  - intros Hall (tc & -> & Hin). by apply (Hall tc).
  - intros Hnot tc Hin Hid. apply Hnot. by exists tc.
Qed.

Lemma find_id_Some (id : string) (prev : list ToolCall.t) :
  id ∈ ids prev -> exists tc, find_id id prev = Some tc.
Proof.
  intros Hin. destruct (find_id id prev) as [tc|] eqn:Hfind; [by eauto|].
  by apply find_id_None in Hfind.
Qed.

Lemma tool_call_start_present (event : Event.t) (prev : list ToolCall.t) :
  Event.toolCallId event ∈ ids prev ->
  tool_call_start event prev =
    map_matching (Event.toolCallId event) restart prev.
Proof.
  intros [tc Hfind]%find_id_Some. unfold tool_call_start. by rewrite Hfind.
Qed.

Lemma tool_call_start_absent (event : Event.t) (prev : list ToolCall.t) :
  Event.toolCallId event ∉ ids prev ->
  tool_call_start event prev =
    prev ++ [ToolCall.mk (Event.toolCallId event) (Event.toolCallName event)
                         "" "" calling false].
Proof.
  intros Hfind%find_id_None. unfold tool_call_start. by rewrite Hfind.
Qed.

Lemma NoDup_tool_call_start (event : Event.t) (prev : list ToolCall.t) :
  NoDup (ids prev) -> NoDup (ids (tool_call_start event prev)).
Proof.
  intros Hnodup.
  destruct (decide (Event.toolCallId event ∈ ids prev)) as [Hin|Hnot].
  - rewrite tool_call_start_present by done. by rewrite ids_map_matching.
  - rewrite tool_call_start_absent by done. unfold ids in *.
    rewrite fmap_app. apply NoDup_app. repeat split; [done| |].
    + intros id Hid Hnew. cbn in Hnew. apply list_elem_of_singleton in Hnew.
      by subst.
    + cbn. apply NoDup_singleton.
Qed.

(** The registry after one event. *)
Lemma toolCalls_reduce (event : Event.t) (x : Exchange) :
  toolCalls (page (reduce Date event x)) =
    let prev := toolCalls (page x) in
    if decide (Event.type event = "TOOL_CALL_START")
    then tool_call_start event prev
    else if decide (Event.type event = "TOOL_CALL_ARGS")
    then map_matching (Event.toolCallId event)
                      (add_args (Event.delta event)) prev
    else if decide (Event.type event = "TOOL_CALL_RESULT")
    then map_matching (Event.toolCallId event)
                      (set_result (Event.content event)) prev
    else prev.
Proof.
  unfold reduce.
  repeat case_decide; try congruence; cbn; try done;
    by destruct (messageAdded x).
Qed.

(** Every event keeps the ids of the registry pairwise different. *)
Lemma NoDup_reduce (event : Event.t) (x : Exchange) :
  NoDup (ids (toolCalls (page x))) ->
  NoDup (ids (toolCalls (page (reduce Date event x)))).
Proof.
  intros Hnodup. rewrite toolCalls_reduce. repeat case_decide; [| | |done].
  - by apply NoDup_tool_call_start.
  - by rewrite ids_map_matching.
  - by rewrite ids_map_matching.
Qed.

Lemma NoDup_reduce_all (events : list Event.t) (x : Exchange) :
  NoDup (ids (toolCalls (page x))) ->
  NoDup (ids (toolCalls (page (reduce_all Date events x)))).
Proof.
  revert x. induction events as [|event events IH]; intros x Hx; [done|].
  rewrite reduce_all_cons. by apply IH, NoDup_reduce.
Qed.

(** *** Argument deltas *)

Lemma args_for_cons (id : string) (event : Event.t) (events : list Event.t) :
  args_for id (event :: events) =
    if decide (Event.toolCallId event = id)
    then Event.delta event +:+ args_for id events
    else args_for id events.
Proof. unfold args_for. rewrite filter_cons. by case_decide. Qed.

Lemma add_args_empty (tc : ToolCall.t) : add_args "" tc = tc.
Proof. destruct tc. unfold add_args. cbn. by rewrite app_nil_r. Qed.

Lemma add_args_twice (delta later : string) (tc : ToolCall.t) :
  add_args later (add_args delta tc) = add_args (delta +:+ later) tc.
Proof. unfold add_args. cbn. by rewrite app_assoc. Qed.

Lemma toolCalls_args_all (events : list Event.t) (x : Exchange) :
  Forall is_args events ->
  toolCalls (page (reduce_all Date events x)) =
    (fun tc => add_args (args_for (ToolCall.id tc) events) tc)
      <$> toolCalls (page x).
Proof.
  intros Hall. revert x.
  induction Hall as [|event events Hev _ IH]; intros x.
  - cbn. rewrite <- (list_fmap_id (toolCalls (page x))) at 1.
    apply list_fmap_ext. intros _ tc _. cbn. by rewrite add_args_empty.
  - rewrite reduce_all_cons, IH, toolCalls_reduce.
    unfold is_args in Hev. rewrite Hev. cbv zeta.
    rewrite decide_False, decide_True by done.
    unfold map_matching. rewrite <- list_fmap_compose.
    apply list_fmap_ext. intros _ tc _. unfold compose.
    rewrite args_for_cons. case_decide as Hid.
    + rewrite decide_True by done. apply add_args_twice.
    + by rewrite decide_False by done.
Qed.

Lemma map_matching_absent (id : string) (f : ToolCall.t -> ToolCall.t)
    (prev : list ToolCall.t) :
  id ∉ ids prev -> map_matching id f prev = prev.
Proof.
  intros Hnot. unfold map_matching.
  rewrite <- (list_fmap_id prev) at 2.
  apply list_fmap_ext. intros i tc Hi. cbn.
  case_decide as Hid; [|done]. exfalso. apply Hnot. unfold ids.
  apply list_elem_of_fmap. exists tc. split; [done|].
  by eapply list_elem_of_lookup_2.
Qed.
End Registry.

(** C6. The ids of the registry are pairwise different after every
    sequence of events of an exchange.  A [TOOL_CALL_START] whose id is in
    the registry rewrites the entry of that id where it stands, with empty
    args and status calling, and adds no entry; one whose id is not in the
    registry adds at the end an entry with empty args and result and status
    calling. *)
Theorem registry_ids_are_unique
    (Date : nat -> Stamp) (st : ChatPage Message.t) (events : list Event.t) :
  NoDup (ids (toolCalls (page
           (reduce_all Date events (exchange_start Date st)))))
  /\ (forall x event,
        Event.type event = "TOOL_CALL_START" ->
        Event.toolCallId event ∈ ids (toolCalls (page x)) ->
        toolCalls (page (reduce Date event x)) =
          (fun tc =>
             if decide (ToolCall.id tc = Event.toolCallId event)
             then ToolCall.mk (ToolCall.id tc) (ToolCall.name tc) ""
                              (ToolCall.result tc) calling
                              (ToolCall.expanded tc)
             else tc) <$> toolCalls (page x))
  /\ (forall x event,
        Event.type event = "TOOL_CALL_START" ->
        Event.toolCallId event ∉ ids (toolCalls (page x)) ->
        toolCalls (page (reduce Date event x)) =
          toolCalls (page x) ++
            [ToolCall.mk (Event.toolCallId event) (Event.toolCallName event)
                         "" "" calling false]).
Proof.
  split; [|split].
  - apply NoDup_reduce_all. cbn. apply NoDup_nil_2.
  - intros x event Htype Hin. rewrite toolCalls_reduce, Htype. cbv zeta.
    rewrite decide_True by done. by apply tool_call_start_present.
  - intros x event Htype Hnot. rewrite toolCalls_reduce, Htype. cbv zeta.
    rewrite decide_True by done. by apply tool_call_start_absent.
Qed.

(** C7. After any sequence of [TOOL_CALL_ARGS] events, every entry of the
    registry has got the deltas addressed to its own id, in arrival order,
    appended to its args, and nothing else.  For two calls that were just
    started with different ids, the args of each is the concatenation of the
    deltas addressed to it.  A [TOOL_CALL_ARGS] whose id is not in the
    registry leaves the registry as it is. *)
Theorem args_deltas_go_to_their_own_call
    (Date : nat -> Stamp) (events : list Event.t) :
  Forall is_args events ->
  (forall x,
     toolCalls (page (reduce_all Date events x)) =
       (fun tc =>
          ToolCall.mk (ToolCall.id tc) (ToolCall.name tc)
                      (ToolCall.args tc +:+ args_for (ToolCall.id tc) events)
                      (ToolCall.result tc) (ToolCall.status tc)
                      (ToolCall.expanded tc))
         <$> toolCalls (page x))
  /\ (forall st startA startB,
        Event.type startA = "TOOL_CALL_START" ->
        Event.type startB = "TOOL_CALL_START" ->
        Event.toolCallId startA <> Event.toolCallId startB ->
        toolCalls (page (reduce_all Date (startA :: startB :: events)
                                    (exchange_start Date st))) =
          [ToolCall.mk (Event.toolCallId startA) (Event.toolCallName startA)
                       (args_for (Event.toolCallId startA) events)
                       "" calling false;
           ToolCall.mk (Event.toolCallId startB) (Event.toolCallName startB)
                       (args_for (Event.toolCallId startB) events)
                       "" calling false])
  /\ (forall x event,
        is_args event ->
        Event.toolCallId event ∉ ids (toolCalls (page x)) ->
        toolCalls (page (reduce Date event x)) = toolCalls (page x)).
Proof.
  intros Hall. split; [|split].
  - intros x. by apply toolCalls_args_all.
  - intros st startA startB HA HB Hne.
    rewrite !reduce_all_cons, toolCalls_args_all by done.
    rewrite !toolCalls_reduce, HA, HB. cbv zeta.
    rewrite !decide_True by done.
    replace (toolCalls (page (exchange_start Date st))) with (@nil ToolCall.t)
      by reflexivity.
    rewrite (tool_call_start_absent startA) by (cbn; apply not_elem_of_nil).
    rewrite tool_call_start_absent.
    + cbn. unfold add_args. cbn. by rewrite !app_nil_l.
    + cbn. rewrite list_elem_of_singleton. congruence.
  - intros x event Hev Hnot. rewrite toolCalls_reduce.
    unfold is_args in Hev. rewrite Hev. cbv zeta.
    rewrite decide_False, decide_True by done.
    by apply map_matching_absent.
Qed.

(** C10. A [TOOL_CALL_START] whose id is in the registry leaves the name
    and the result of every entry as they were, the entry of that id
    included: the name carried by the event is not used and a result that
    was set stays.  The ids, their order and the expanded flags stay as
    well; only args and status of the entry of that id are reset. *)
Theorem restart_keeps_name_and_result
    (Date : nat -> Stamp) (x : Exchange) (event : Event.t) :
  Event.type event = "TOOL_CALL_START" ->
  Event.toolCallId event ∈ ids (toolCalls (page x)) ->
  let prev := toolCalls (page x) in
  let next := toolCalls (page (reduce Date event x)) in
  ToolCall.name <$> next = ToolCall.name <$> prev
  /\ ToolCall.result <$> next = ToolCall.result <$> prev
  /\ ids next = ids prev
  /\ ToolCall.expanded <$> next = ToolCall.expanded <$> prev
  /\ (forall i tc, prev !! i = Some tc ->
        next !! i =
          Some (if decide (ToolCall.id tc = Event.toolCallId event)
                then ToolCall.mk (ToolCall.id tc) (ToolCall.name tc) ""
                                 (ToolCall.result tc) calling
                                 (ToolCall.expanded tc)
                else tc)).
Proof.
  intros Htype Hin prev next.
  assert (next = map_matching (Event.toolCallId event) restart prev) as ->.
  { unfold next. rewrite toolCalls_reduce, Htype. cbv zeta.
    rewrite decide_True by done. by apply tool_call_start_present. }
  unfold map_matching, ids. rewrite <- !list_fmap_compose.
  repeat split.
  - apply list_fmap_ext. intros _ tc _. cbn. by case_decide.
  - apply list_fmap_ext. intros _ tc _. cbn. by case_decide.
  - apply list_fmap_ext. intros _ tc _. cbn. by case_decide.
  - apply list_fmap_ext. intros _ tc _. cbn. by case_decide.
  - intros i tc Hi. rewrite list_lookup_fmap, Hi. done.
Qed.

(** ** The guard of [sendMessage] *)

(** C8. When the input is empty after trimming, or an exchange is in
    progress, [sendMessage] returns at once: the state is the state it was
    called in, so no message of the user is appended, and no request is
    issued. *)
Theorem sendMessage_guard
    (Date : nat -> Stamp) (JSON_parse : string -> option Event.t)
    (fetch : Request -> FetchResult) (st : ChatPage Message.t) :
  JS.trim (input st) = "" \/ isLoading st = true ->
  sendMessage Date JSON_parse fetch st = (st, []).
Proof.
  intros Hguard. unfold sendMessage.
  destruct Hguard as [Hempty|Hloading].
  - rewrite Hempty. reflexivity.
  - rewrite Hloading. by rewrite orb_true_r.
Qed.

Lemma trimStart_whitespace (s : string) :
  JS.has_other_than_space s = false -> JS.trimStart s = "".
Proof.
  induction s as [|c s IH]; cbn; [done|].
  destruct (Ascii.is_space c); cbn; [done|discriminate].
Qed.

(** An input made of white space only is empty after trimming. *)
Lemma trim_whitespace (s : string) :
  JS.has_other_than_space s = false -> JS.trim s = "".
Proof. intros Hs. unfold JS.trim. by rewrite (trimStart_whitespace s Hs). Qed.

(** ** Transport failures *)

Section Failures.
Variable Date : nat -> Stamp.
Variable JSON_parse : string -> option Event.t.
Variable fetch : Request -> FetchResult.

Lemma try_block_throws (userPrompt : string) (p : ChatPage Message.t)
    (t : nat) :
  transport_failure (fetch (request_for userPrompt)) ->
  exists p' t',
    try_block Date JSON_parse fetch userPrompt p t = (Throws, p', t')
    /\ (fails_before_reading (fetch (request_for userPrompt)) -> p' = p).
Proof.
  unfold try_block, transport_failure, fails_before_reading.
  destruct (fetch (request_for userPrompt)) as [|ok status [body|]].
  - intros _. by exists p, t.
  - destruct ok; cbn.
    + intros [?|Hend]; [done|].
      destruct (read_loop _ _ _ _ _) as [x buffer]. rewrite Hend.
      exists (freeze x), (tick x). split; [done|]. intros ?; done.
    + intros _. by exists p, t.
  - intros _. by exists p, t.
Qed.

Lemma sendMessage_passes_guard (st : ChatPage Message.t) :
  JS.trim (input st) <> "" -> isLoading st = false ->
  sendMessage Date JSON_parse fetch st =
    let userPrompt := JS.trim (input st) in
    let '(completion, p, t) :=
      try_block Date JSON_parse fetch userPrompt (submit Date st) 1 in
    let p := match completion with
             | Returns => p
             | Throws => catch_block Date p t
             end in
    (finally_block p, [request_for userPrompt]).
Proof.
  intros Hinput Hloading. unfold sendMessage, JS.truthy.
  by rewrite Hloading, bool_decide_eq_false_2.
Qed.
End Failures.

(** C2, as the code has it.  When the exchange ends in a failure of the
    transport (no connection, a response that is not a success or has no
    body, a read that fails), the [catch] block appends the generic failure
    message to the transcript in every case, whether or not the exchange has
    already produced assistant content; the exchange ends with status
    "online" and not loading.  When the failure comes before the body is
    read, the message follows the message of the user directly. *)
Theorem failure_message_is_always_appended
    (Date : nat -> Stamp) (JSON_parse : string -> option Event.t)
    (fetch : Request -> FetchResult) (st : ChatPage Message.t) :
  JS.trim (input st) <> "" ->
  isLoading st = false ->
  transport_failure (fetch (request_for (JS.trim (input st)))) ->
  exists p t,
    try_block Date JSON_parse fetch (JS.trim (input st)) (submit Date st) 1
      = (Throws, p, t)
    /\ failure_message_appended p (catch_block Date p t)
    /\ (sendMessage Date JSON_parse fetch st).1
         = finally_block (catch_block Date p t)
    /\ messages (sendMessage Date JSON_parse fetch st).1 =
         messages p ++
           [Message.mk (now (Date t) + 2) assistant generic_failure
                       (toLocaleTimeString (Date t))]
    /\ currentStatus (sendMessage Date JSON_parse fetch st).1 = "online"
    /\ isLoading (sendMessage Date JSON_parse fetch st).1 = false
    /\ (fails_before_reading (fetch (request_for (JS.trim (input st)))) ->
        p = submit Date st).
Proof.
  intros Hinput Hloading Hfail.
  destruct (try_block_throws Date JSON_parse fetch _ (submit Date st) 1 Hfail)
    as (p & t & Htry & Hbefore).
  exists p, t. rewrite sendMessage_passes_guard by done.
  cbv zeta. rewrite Htry. cbn [fst].
  repeat split; try done.
  by eexists.
Qed.

(** C2, as stated, fails: the stream breaks after the assistant message
    has received the content "Hi", and the generic failure message is
    appended all the same. *)
Lemma failure_message_appended_despite_content :
  let st := setInput "hello" initial_page in
  let '(completion, p, t) :=
    try_block sample_Date sample_parse broken_stream "hello"
              (submit sample_Date st) 1 in
  completion = Throws
  /\ messages (sendMessage sample_Date sample_parse broken_stream st).1 =
       initialMessages ++
         [Message.mk 1700000000000 user "hello" "11:01 AM";
          Message.mk 1700000000002 assistant "Hi" "11:01 AM";
          Message.mk 1700000000004 assistant generic_failure "11:01 AM"]
  /\ ~ (failure_message_appended p (catch_block sample_Date p t)
        <-> ~ assistant_content_exists st p).
Proof.
  cbv zeta.
  destruct (try_block _ _ _ _ _ _) as [[completion p] t] eqn:Htry.
  vm_compute in Htry. injection Htry as <- <- <-.
  split; [done|]. split; [by vm_compute|].
  intros [Honly _]. apply Honly.
  - eexists. cbn. split; [reflexivity|]. by split.
  - unfold assistant_content_exists, exchange_messages. cbn.
    apply Exists_cons_tl, Exists_cons_hd. by split.
Qed.

(** ** The theorems at sample inputs *)

Lemma content_is_concatenation_of_deltas_witness :
  is_start TEXT_MESSAGE_START
  /\ Forall (fun event => ~ is_content event) [RUN_STARTED]
  /\ exists older,
       transcript (reduce_all sample_Date
                     ([RUN_STARTED] ++ TEXT_MESSAGE_START :: sample_answer)
                     (exchange_start sample_Date sample_page)) =
         older ++ [Message.mk 1700000000002 assistant "Hi there" "11:01 AM"].
Proof.
  assert (is_start TEXT_MESSAGE_START) as Hstart by reflexivity.
  assert (Forall (fun event => ~ is_content event) [RUN_STARTED]) as Hpre.
  { constructor; [|constructor]. intros H. discriminate H. }
  split; [exact Hstart|]. split; [exact Hpre|].
  destruct (content_is_concatenation_of_deltas sample_Date sample_page
              [RUN_STARTED] TEXT_MESSAGE_START sample_answer Hstart Hpre)
    as (older & Heq & _).
  exists older. exact Heq.
Defined.

Lemma failure_message_is_always_appended_witness :
  JS.trim (input sample_page) <> ""
  /\ isLoading sample_page = false
  /\ transport_failure
       (broken_stream (request_for (JS.trim (input sample_page))))
  /\ messages (sendMessage sample_Date sample_parse broken_stream
                 sample_page).1 =
       initialMessages ++
         [Message.mk 1700000000000 user "hello" "11:01 AM";
          Message.mk 1700000000002 assistant "Hi" "11:01 AM";
          Message.mk 1700000000004 assistant generic_failure "11:01 AM"].
Proof.
  assert (JS.trim (input sample_page) <> "") as Hinput
    by (intros H; discriminate H).
  assert (isLoading sample_page = false) as Hloading by reflexivity.
  assert (transport_failure
            (broken_stream (request_for (JS.trim (input sample_page)))))
    as Hfail by (right; reflexivity).
  split; [exact Hinput|]. split; [exact Hloading|]. split; [exact Hfail|].
  destruct (failure_message_is_always_appended sample_Date sample_parse
              broken_stream sample_page Hinput Hloading Hfail)
    as (p & t & Htry & _ & _ & Hmsgs & _).
  rewrite Hmsgs. vm_compute in Htry. injection Htry as <- <-. reflexivity.
Defined.

Lemma content_before_start_is_kept_aside_witness :
  is_content (TEXT_MESSAGE_CONTENT "Hi")
  /\ Forall (fun e => ~ is_start e) [RUN_STARTED]
  /\ let x := reduce_all sample_Date [RUN_STARTED]
                (exchange_start sample_Date sample_page) in
     let x' := reduce sample_Date (TEXT_MESSAGE_CONTENT "Hi") x in
     transcript x' = transcript x
     /\ transcript (reduce sample_Date TEXT_MESSAGE_START x') =
          transcript x ++
            [Message.mk 1700000000002 assistant "Hi" "11:01 AM"].
Proof.
  assert (is_content (TEXT_MESSAGE_CONTENT "Hi")) as Hcontent by reflexivity.
  assert (Forall (fun e => ~ is_start e) [RUN_STARTED]) as Hpre.
  { constructor; [|constructor]. intros H. discriminate H. }
  split; [exact Hcontent|]. split; [exact Hpre|].
  destruct (content_before_start_is_kept_aside sample_Date sample_page
              [RUN_STARTED] (TEXT_MESSAGE_CONTENT "Hi") Hcontent Hpre)
    as (_ & _ & Hmsg & Hsame & Hlater).
  cbv zeta. split.
  - apply Hsame. intros msg Hlast. vm_compute in Hlast.
    injection Hlast as <-. intros H. discriminate H.
  - rewrite (Hlater TEXT_MESSAGE_START eq_refl), Hmsg. reflexivity.
Defined.

Lemma run_error_appends_one_message_unless_started_witness :
  Event.type (RUN_ERROR "boom") = "RUN_ERROR"
  /\ Forall (fun e => ~ is_start e) [RUN_STARTED]
  /\ let x := reduce_all sample_Date [RUN_STARTED]
                (exchange_start sample_Date sample_page) in
     let x' := reduce sample_Date (RUN_ERROR "boom") x in
     currentStatus (page x') = "error"
     /\ transcript x' =
          transcript x ++
            [Message.mk 1700000000004 assistant "Error: boom" "11:01 AM"].
Proof.
  assert (Forall (fun e => ~ is_start e) [RUN_STARTED]) as Hpre.
  { constructor; [|constructor]. intros H. discriminate H. }
  split; [reflexivity|]. split; [exact Hpre|].
  destruct (run_error_appends_one_message_unless_started sample_Date
              sample_page [RUN_STARTED] (RUN_ERROR "boom") eq_refl)
    as (Hstatus & Hnew & _).
  cbv zeta. split; [exact Hstatus|]. exact (Hnew Hpre).
Defined.

Lemma frames_independent_of_chunking_witness :
  JS.concat ["data: a"; line "b" +:+ "da"; line "ta: c"] =
    JS.concat [line "data: ab" +:+ line "data: c"]
  /\ frames_of_chunks "" ["data: a"; line "b" +:+ "da"; line "ta: c"] =
       frames_of_chunks "" [line "data: ab" +:+ line "data: c"].
Proof.
  split; [reflexivity|].
  exact (proj1 (frames_independent_of_chunking
                  ["data: a"; line "b" +:+ "da"; line "ta: c"]
                  [line "data: ab" +:+ line "data: c"] eq_refl)).
Defined.

Lemma registry_ids_are_unique_witness :
  let events := [TOOL_CALL_START "t1" "search"; TOOL_CALL_ARGS "t1" "q"] in
  let x := reduce_all sample_Date events
             (exchange_start sample_Date sample_page) in
  NoDup (ids (toolCalls (page x)))
  /\ (Event.toolCallId (TOOL_CALL_START "t1" "other")
        ∈ ids (toolCalls (page x)))
  /\ toolCalls (page (reduce sample_Date (TOOL_CALL_START "t1" "other") x)) =
       [ToolCall.mk "t1" "search" "" "" calling false]
  /\ (Event.toolCallId (TOOL_CALL_START "t2" "lookup")
        ∉ ids (toolCalls (page x)))
  /\ toolCalls (page (reduce sample_Date (TOOL_CALL_START "t2" "lookup") x)) =
       [ToolCall.mk "t1" "search" "q" "" calling false;
        ToolCall.mk "t2" "lookup" "" "" calling false].
Proof.
  intros events x.
  destruct (registry_ids_are_unique sample_Date sample_page events)
    as (Hnodup & Hpresent & Habsent).
  assert (Event.toolCallId (TOOL_CALL_START "t1" "other")
            ∈ ids (toolCalls (page x))) as Hin by (cbn; left).
  assert (Event.toolCallId (TOOL_CALL_START "t2" "lookup")
            ∉ ids (toolCalls (page x))) as Hnot.
  { cbn. intros H. apply list_elem_of_singleton in H. discriminate H. }
  split; [exact Hnodup|]. split; [exact Hin|]. split; [|split; [exact Hnot|]].
  - rewrite (Hpresent x (TOOL_CALL_START "t1" "other") eq_refl Hin).
    reflexivity.
  - rewrite (Habsent x (TOOL_CALL_START "t2" "lookup") eq_refl Hnot).
    reflexivity.
Defined.

Lemma args_deltas_go_to_their_own_call_witness :
  Forall is_args sample_args
  /\ Event.toolCallId (TOOL_CALL_START "a" "search") <>
       Event.toolCallId (TOOL_CALL_START "b" "lookup")
  /\ toolCalls (page (reduce_all sample_Date
                        (TOOL_CALL_START "a" "search"
                           :: TOOL_CALL_START "b" "lookup" :: sample_args)
                        (exchange_start sample_Date sample_page))) =
       [ToolCall.mk "a" "search" "q=cats" "" calling false;
        ToolCall.mk "b" "lookup" "id=7" "" calling false].
Proof.
  assert (Forall is_args sample_args) as Hall
    by (repeat constructor).
  assert (Event.toolCallId (TOOL_CALL_START "a" "search") <>
          Event.toolCallId (TOOL_CALL_START "b" "lookup")) as Hne
    by (intros H; discriminate H).
  split; [exact Hall|]. split; [exact Hne|].
  destruct (args_deltas_go_to_their_own_call sample_Date sample_args Hall)
    as (_ & Htwo & _).
  rewrite (Htwo sample_page (TOOL_CALL_START "a" "search")
             (TOOL_CALL_START "b" "lookup") eq_refl eq_refl Hne).
  reflexivity.
Defined.

Lemma sendMessage_guard_witness :
  JS.trim (input (setInput "   " initial_page)) = ""
  /\ sendMessage sample_Date sample_parse broken_stream
       (setInput "   " initial_page) = (setInput "   " initial_page, [])
  /\ sendMessage sample_Date sample_parse broken_stream
       (setIsLoading true sample_page) = (setIsLoading true sample_page, []).
Proof.
  split; [reflexivity|]. split.
  - apply sendMessage_guard. left. reflexivity.
  - apply sendMessage_guard. right. reflexivity.
Defined.

Lemma unterminated_tail_is_discarded_witness :
  JS.has_LF "data: C:Hi" = false
  /\ JS.concat [line "data: TEXT_MESSAGE_START" +:+ "data: C:Hi"] =
       "data: TEXT_MESSAGE_START" +:+ String JS.LF "data: C:Hi"
  /\ try_block sample_Date sample_parse cut_stream "hello"
       (submit sample_Date sample_page) 1 =
       let x := handle_parts sample_Date sample_parse
                  (JS.split "data: TEXT_MESSAGE_START")
                  (open_stream sample_Date (submit sample_Date sample_page) 1)
       in (Returns, freeze x, tick x).
Proof.
  split; [reflexivity|]. split; [reflexivity|].
  destruct (unterminated_tail_is_discarded sample_Date sample_parse cut_stream
              [line "data: TEXT_MESSAGE_START" +:+ "data: C:Hi"]
              "data: C:Hi" eq_refl) as (_ & _ & Htry).
  exact (Htry "data: TEXT_MESSAGE_START" "hello" 200
              (submit sample_Date sample_page) 1%nat eq_refl eq_refl).
Defined.

Lemma restart_keeps_name_and_result_witness :
  let x := reduce_all sample_Date
             [TOOL_CALL_START "t1" "search"; TOOL_CALL_ARGS "t1" "q=cats";
              TOOL_CALL_RESULT "t1" "3 results"]
             (exchange_start sample_Date sample_page) in
  let next := toolCalls (page (reduce sample_Date
                                 (TOOL_CALL_START "t1" "other") x)) in
  (Event.toolCallId (TOOL_CALL_START "t1" "other")
     ∈ ids (toolCalls (page x)))
  /\ ToolCall.name <$> next = ["search"]
  /\ ToolCall.result <$> next = ["3 results"].
Proof.
  intros x next.
  assert (Event.toolCallId (TOOL_CALL_START "t1" "other")
            ∈ ids (toolCalls (page x))) as Hin by (cbn; left).
  split; [exact Hin|].
  destruct (restart_keeps_name_and_result sample_Date x
              (TOOL_CALL_START "t1" "other") eq_refl Hin)
    as (Hname & Hresult & _).
  split; [exact Hname|exact Hresult].
Defined.

(** * Further properties of the page *)

(** ** From the text of the stream to the events *)

Lemma split_unlines (frames : list string) :
  Forall (fun frame => JS.has_LF frame = false) frames ->
  JS.split (JS.unlines frames) = frames ++ [""].
Proof.
  induction 1 as [|frame frames Hframe _ IH]; [done|].
  rewrite unlines_cons, split_line_break, IH.
  by rewrite (split_without_LF _ Hframe).
Qed.

Lemma has_LF_app (s r : string) :
  JS.has_LF (s +:+ r) = JS.has_LF s || JS.has_LF r.
Proof.
  induction s as [|c s IH]; [done|].
  rewrite app_cons. cbn. by rewrite IH, orb_assoc.
Qed.

Lemma slice_prefix (payload : string) :
  JS.slice 6 ("data: " +:+ payload) = payload.
Proof. reflexivity. Qed.

Lemma startsWith_prefix (payload : string) :
  JS.startsWith "data: " ("data: " +:+ payload) = true.
Proof. cbn. by destruct payload. Qed.

Section Decoding.
Variable Date : nat -> Stamp.
Variable JSON_parse : string -> option Event.t.

Lemma handle_part_decode (part : string) (x : Exchange) :
  handle_part Date JSON_parse part x =
    match decode JSON_parse part with
    | Some event => reduce Date event x
    | None => x
    end.
Proof. unfold handle_part, decode. by destruct (JS.startsWith _ _). Qed.

(** The loop body applies the reducer to the events of the frames. *)
Lemma handle_parts_events (parts : list string) (x : Exchange) :
  handle_parts Date JSON_parse parts x =
    reduce_all Date (events_of JSON_parse parts) x.
Proof.
  revert x. induction parts as [|part parts IH]; intros x; [done|].
  unfold handle_parts in *. cbn [foldl]. rewrite handle_part_decode, IH.
  unfold events_of. cbn [omap list_omap].
  by destruct (decode JSON_parse part).
Qed.

Lemma decode_frame (enc : Event.t -> string) (event : Event.t) :
  JSON_parse (enc event) = Some event ->
  decode JSON_parse ("data: " +:+ enc event) = Some event.
Proof.
  intros Hparse. unfold decode.
  by rewrite startsWith_prefix, slice_prefix.
Qed.

Lemma events_of_frames (enc : Event.t -> string) (events : list Event.t) :
  Forall (fun event => JSON_parse (enc event) = Some event) events ->
  events_of JSON_parse ((fun event => "data: " +:+ enc event) <$> events)
    = events.
Proof.
  induction 1 as [|event events Hev _ IH]; [done|].
  unfold events_of in *. rewrite fmap_cons. cbn [omap list_omap].
  by rewrite (decode_frame enc event Hev), IH.
Qed.

(** A type without a case in the [switch] changes nothing. *)
Lemma reduce_unknown_type (event : Event.t) (x : Exchange) :
  Event.type event ∉ known_types -> reduce Date event x = x.
Proof.
  intros Hnot.
  assert (forall type, type ∈ known_types -> Event.type event <> type) as Hne.
  { intros type Hin Heq. apply Hnot. by rewrite Heq. }
  unfold reduce.
  rewrite !decide_False; [done|apply Hne; unfold known_types..];
    repeat constructor.
Qed.

Lemma handle_part_passed_over (part : string) (x : Exchange) :
  passed_over JSON_parse part -> handle_part Date JSON_parse part x = x.
Proof.
  unfold passed_over. rewrite handle_part_decode.
  destruct (decode JSON_parse part); [|done]. apply reduce_unknown_type.
Qed.
End Decoding.

(** X1. End to end: when the text of the stream is one frame per event,
    each the prefix followed by a payload without line break that parses
    back to the event, then, however the text is cut into chunks, the read
    loop leaves the state that the reducer gives for these events in order,
    with an empty buffer; and a [sendMessage] that receives this stream on a
    successful response ends in that state, closed by the [finally]
    block. *)
Theorem stream_of_events_is_reduced
    (Date : nat -> Stamp) (JSON_parse : string -> option Event.t)
    (enc : Event.t -> string) (events : list Event.t)
    (chunks : list string) :
  Forall (fun event => JSON_parse (enc event) = Some event
                       /\ JS.has_LF (enc event) = false) events ->
  JS.concat chunks = wire enc events ->
  (forall x, read_loop Date JSON_parse chunks "" x
             = (reduce_all Date events x, ""))
  /\ (forall fetch st status,
        JS.trim (input st) <> "" ->
        isLoading st = false ->
        fetch (request_for (JS.trim (input st))) =
          Resolves true status
            (Some {| chunks := chunks; ending := EndOfStream |}) ->
        sendMessage Date JSON_parse fetch st =
          (finally_block
             (freeze (reduce_all Date events (exchange_start Date st))),
           [request_for (JS.trim (input st))])).
Proof.
  intros Hall Htext.
  assert (forall x, read_loop Date JSON_parse chunks "" x
                    = (reduce_all Date events x, "")) as Hloop.
  { intros x. rewrite read_loop_frames.
    rewrite frames_of_chunks_split by done. rewrite app_nil_l, Htext.
    unfold wire. rewrite split_unlines.
    - cbn [fst snd]. rewrite removelast_last, last_snoc.
      rewrite handle_parts_events, (events_of_frames JSON_parse enc); [done|].
      eapply Forall_impl; [exact Hall|]. by intros event [? _].
    - apply Forall_fmap. eapply Forall_impl; [exact Hall|].
      intros event [_ Henc]. cbn. by rewrite has_LF_app, Henc. }
  split; [done|].
  intros fetch st status Hinput Hloading Hfetch.
  rewrite sendMessage_passes_guard by done.
  cbv zeta. unfold try_block. rewrite Hfetch. cbn [negb].
  change (open_stream Date (submit Date st) 1) with (exchange_start Date st).
  simpl. rewrite Hloop. reflexivity.
Qed.

Lemma split_unlines_tail (frames : list string) (tail : string) :
  Forall (fun frame => JS.has_LF frame = false) frames ->
  JS.has_LF tail = false ->
  JS.split (JS.unlines frames +:+ tail) = frames ++ [tail].
Proof.
  intros Hframes Htail.
  induction Hframes as [|frame frames Hframe _ IH].
  - rewrite app_nil_l. by apply split_without_LF.
  - rewrite unlines_cons, app_assoc, app_cons, split_line_break, IH.
    by rewrite (split_without_LF _ Hframe).
Qed.

(** The state after the loop, for a text given by its lines and the
    fragment after the last line break. *)
Lemma read_loop_lines
    (Date : nat -> Stamp) (JSON_parse : string -> option Event.t)
    (chunks frames : list string) (tail : string) (x : Exchange) :
  Forall (fun frame => JS.has_LF frame = false) frames ->
  JS.has_LF tail = false ->
  JS.concat chunks = JS.unlines frames +:+ tail ->
  read_loop Date JSON_parse chunks "" x =
    (handle_parts Date JSON_parse frames x, tail).
Proof.
  intros Hframes Htail Htext. rewrite read_loop_frames.
  rewrite frames_of_chunks_split by done. rewrite app_nil_l, Htext.
  rewrite split_unlines_tail by done. cbn [fst snd].
  by rewrite removelast_last, last_snoc.
Qed.

(** X2. Lines that the loop passes over can stand anywhere in the stream:
    a line without the prefix (a blank keep-alive line, a comment), a line
    whose payload does not parse, or an event of a type without a case
    changes nothing, so that the stream with such a line and the stream
    without it leave the same state and the same pending buffer, whatever
    the chunking of either. *)
Theorem passed_over_lines_change_nothing
    (Date : nat -> Stamp) (JSON_parse : string -> option Event.t)
    (before after : list string) (part tail : string)
    (chunks chunks' : list string) (x : Exchange) :
  passed_over JSON_parse part ->
  Forall (fun frame => JS.has_LF frame = false) (before ++ part :: after) ->
  JS.has_LF tail = false ->
  JS.concat chunks = JS.unlines (before ++ part :: after) +:+ tail ->
  JS.concat chunks' = JS.unlines (before ++ after) +:+ tail ->
  read_loop Date JSON_parse chunks "" x =
    read_loop Date JSON_parse chunks' "" x.
Proof.
  intros Hpart Hframes Htail Htext Htext'.
  rewrite (read_loop_lines _ _ chunks (before ++ part :: after) tail)
    by done.
  rewrite (read_loop_lines _ _ chunks' (before ++ after) tail); try done.
  - rewrite !handle_parts_app.
    change (handle_parts Date JSON_parse (part :: after)) with
      (fun y => handle_parts Date JSON_parse after
                  (handle_part Date JSON_parse part y)).
    cbv beta. by rewrite handle_part_passed_over.
  - apply Forall_app in Hframes as [Hbefore Hafter].
    apply Forall_app. split; [done|]. by inversion Hafter.
Qed.

(** ** What an exchange leaves alone *)

Section Frame.
Variable Date : nat -> Stamp.
Variable JSON_parse : string -> option Event.t.

(** The array after one event. *)
Lemma messages_reduce (event : Event.t) (x : Exchange) :
  messages (page (reduce Date event x)) =
    let prev := messages (page x) in
    if decide (is_start event)
    then (if messageAdded x then prev else prev ++ [AssistantMsg])
    else if decide (is_content event)
    then replace_last
           (Message.append_content (Event.delta event) (assistantMsg x)) prev
    else if decide (is_run_error event)
    then (if messageAdded x then prev
          else prev ++ [Own (error_message Date x
                               ("Error: " +:+ Event.message event))])
    else prev.
Proof.
  unfold reduce, is_start, is_content, is_run_error.
  repeat case_decide; try congruence; cbn; try done;
    by destruct (messageAdded x).
Qed.

(** No event writes the input or the scroll flags. *)
Lemma reduce_keeps_ui (event : Event.t) (x : Exchange) :
  input (page (reduce Date event x)) = input (page x)
  /\ userHasScrolled (page (reduce Date event x)) = userHasScrolled (page x)
  /\ isNearBottom (page (reduce Date event x)) = isNearBottom (page x).
Proof.
  unfold reduce.
  repeat case_decide; cbn; try done; by destruct (messageAdded x).
Qed.

Lemma reduce_all_keeps_ui (events : list Event.t) (x : Exchange) :
  input (page (reduce_all Date events x)) = input (page x)
  /\ userHasScrolled (page (reduce_all Date events x))
       = userHasScrolled (page x)
  /\ isNearBottom (page (reduce_all Date events x)) = isNearBottom (page x).
Proof.
  revert x. induction events as [|event events IH]; intros x; [done|].
  rewrite reduce_all_cons.
  destruct (IH (reduce Date event x)) as (-> & -> & ->).
  apply reduce_keeps_ui.
Qed.

Lemma replace_last_cases (msg : Message.t) (l : list MessageRef)
    (r : MessageRef) :
  replace_last msg (l ++ [r]) = l ++ [r]
  \/ replace_last msg (l ++ [r]) = l ++ [Own msg].
Proof.
  destruct (decide (Message.role (deref msg r) = assistant)).
  - right. by apply replace_last_snoc.
  - left. by apply replace_last_other.
Qed.

(** No event touches the messages up to the message of the user. *)
Lemma reduce_keeps_base (base : list MessageRef) (u : Message.t)
    (event : Event.t) (x : Exchange) :
  Message.role u = user ->
  (exists extra, messages (page x) = base ++ Own u :: extra) ->
  exists extra, messages (page (reduce Date event x)) = base ++ Own u :: extra.
Proof.
  intros Hu [extra Hmsgs]. rewrite messages_reduce, Hmsgs. cbv zeta.
  repeat case_decide.
  - destruct (messageAdded x); [by eauto|].
    exists (extra ++ [AssistantMsg]). by rewrite <- List.app_assoc.
  - destruct extra as [|r extra _] using rev_ind.
    + exists []. apply replace_last_other. cbn. by rewrite Hu.
    + replace (base ++ Own u :: extra ++ [r])
        with ((base ++ Own u :: extra) ++ [r])
        by by rewrite <- List.app_assoc.
      destruct (replace_last_cases
                  (Message.append_content (Event.delta event) (assistantMsg x))
                  (base ++ Own u :: extra) r) as [-> | ->];
        rewrite <- List.app_assoc; by eauto.
  - destruct (messageAdded x); [by eauto|].
    eexists (extra ++ [_]). by rewrite <- List.app_assoc.
  - by eauto.
Qed.

Lemma reduce_all_keeps_base (base : list MessageRef) (u : Message.t)
    (events : list Event.t) (x : Exchange) :
  Message.role u = user ->
  (exists extra, messages (page x) = base ++ Own u :: extra) ->
  exists extra,
    messages (page (reduce_all Date events x)) = base ++ Own u :: extra.
Proof.
  intros Hu. revert x.
  induction events as [|event events IH]; intros x Hx; [done|].
  rewrite reduce_all_cons. by apply IH, reduce_keeps_base.
Qed.

(** The [try] block, entered after [submit], leaves a state in which the
    transcript starts with the old transcript and the message of the user,
    and in which the input and the scroll flags are those of [submit]. *)
Lemma try_block_after_submit (fetch : Request -> FetchResult)
    (st : ChatPage Message.t) (userPrompt : string) :
  exists completion extra p t,
    try_block Date JSON_parse fetch userPrompt (submit Date st) 1
      = (completion, p, t)
    /\ messages p = messages st ++ userMsg_of Date st :: extra
    /\ input p = "" /\ userHasScrolled p = false /\ isNearBottom p = true.
Proof.
  unfold try_block.
  assert (messages (submit Date st) = messages st ++ [userMsg_of Date st])
    as Hsubmit by reflexivity.
  destruct (fetch (request_for userPrompt)) as [|ok status [body|]];
    [by exists Throws, [], (submit Date st), 1%nat| |
     by exists Throws, [], (submit Date st), 1%nat].
  destruct ok; cbn [negb];
    [|by exists Throws, [], (submit Date st), 1%nat].
  rewrite read_loop_frames, handle_parts_events.
  set (events := events_of JSON_parse _).
  set (x := reduce_all Date events (open_stream Date (submit Date st) 1)).
  destruct (reduce_all_keeps_base (Own <$> messages st) (userMsg_of Date st)
              events (open_stream Date (submit Date st) 1) eq_refl)
    as [extra Hextra].
  { exists []. cbn. by rewrite fmap_app. }
  fold x in Hextra.
  destruct (reduce_all_keeps_ui events (open_stream Date (submit Date st) 1))
    as (Hinput & Hscrolled & Hnear). fold x in Hinput, Hscrolled, Hnear.
  assert (messages (freeze x) =
          messages st ++ userMsg_of Date st :: (deref (assistantMsg x) <$> extra))
    as Hfrozen.
  { cbn. rewrite Hextra, fmap_app, deref_thaw. done. }
  destruct (ending body);
    [exists Returns|exists Throws];
    exists (deref (assistantMsg x) <$> extra), (freeze x), (tick x);
    (split; [done|]); (split; [exact Hfrozen|]); cbn;
    by rewrite Hinput, Hscrolled, Hnear.
Qed.
End Frame.

(** X3. An exchange never rewrites history: whatever the network and the
    stream do, a [sendMessage] that passes its guard returns a transcript
    that starts with the old transcript, unchanged, followed by the message
    of the user, whose content is the trimmed input. *)
Theorem sendMessage_keeps_history
    (Date : nat -> Stamp) (JSON_parse : string -> option Event.t)
    (fetch : Request -> FetchResult) (st : ChatPage Message.t) :
  JS.trim (input st) <> "" ->
  isLoading st = false ->
  exists extra,
    messages (sendMessage Date JSON_parse fetch st).1 =
      messages st
        ++ Message.mk (now (Date 0%nat)) user (JS.trim (input st))
                      (toLocaleTimeString (Date 0%nat))
        :: extra.
Proof.
  intros Hinput Hloading. rewrite sendMessage_passes_guard by done.
  cbv zeta.
  destruct (try_block_after_submit Date JSON_parse fetch st
              (JS.trim (input st)))
    as (completion & extra & p & t & -> & Hmsgs & _).
  cbn [fst]. destruct completion.
  - exists extra. exact Hmsgs.
  - eexists (extra ++ [_]). cbn. rewrite Hmsgs, <- List.app_assoc. done.
Qed.

(** X4. Whatever the network and the stream do, a [sendMessage] that passes
    its guard issues exactly one request, a POST for an event stream that
    carries the trimmed input, and ends with the input emptied, not
    loading, with status "online", and with the scroll flags set for
    following the answer. *)
Theorem sendMessage_end_state
    (Date : nat -> Stamp) (JSON_parse : string -> option Event.t)
    (fetch : Request -> FetchResult) (st : ChatPage Message.t) :
  JS.trim (input st) <> "" ->
  isLoading st = false ->
  let '(st', requests) := sendMessage Date JSON_parse fetch st in
  requests = [{| method := "POST"; userprompt := JS.trim (input st);
                 Accept := "text/event-stream" |}]
  /\ input st' = ""
  /\ isLoading st' = false
  /\ currentStatus st' = "online"
  /\ userHasScrolled st' = false
  /\ isNearBottom st' = true.
Proof.
  intros Hinput Hloading. rewrite sendMessage_passes_guard by done.
  cbv zeta.
  destruct (try_block_after_submit Date JSON_parse fetch st
              (JS.trim (input st)))
    as (completion & extra & p & t & -> & _ & Hin & Hscrolled & Hnear).
  destruct completion; cbn; by rewrite Hin, Hscrolled, Hnear.
Qed.

(** ** How many messages an exchange adds *)

Section Counting.
Variable Date : nat -> Stamp.

Lemma before_first_start_no_start (events : list Event.t) :
  Forall (fun event => ~ is_start event) (before_first_start events).
Proof.
  induction events as [|event events IH]; cbn; [done|].
  case_decide; by constructor.
Qed.

Lemma before_first_start_split (events : list Event.t) :
  Exists is_start events ->
  exists start post,
    is_start start /\ events = before_first_start events ++ start :: post.
Proof.
  induction 1 as [event events Hstart|event events _ IH]; cbn.
  - rewrite decide_True by done. by exists event, events.
  - case_decide as Hev; [by exists event, events|].
    destruct IH as (start & post & Hstart & Heq).
    exists start, post. split; [done|]. cbn. by rewrite <- Heq.
Qed.

Lemma before_first_start_all (events : list Event.t) :
  ~ Exists is_start events -> before_first_start events = events.
Proof.
  induction events as [|event events IH]; cbn; [done|].
  intros Hnot. case_decide as Hev.
  - exfalso. apply Hnot. by constructor.
  - rewrite IH; [done|]. intros Hex. apply Hnot. by constructor.
Qed.

(** Before the first [TEXT_MESSAGE_START], only [RUN_ERROR] adds to the
    array. *)
Lemma length_before_start (pre : list Event.t) (x : Exchange) :
  messageAdded x = false ->
  Forall (fun event => ~ is_start event) pre ->
  length (messages (page (reduce_all Date pre x))) =
    (length (messages (page x)) + length (filter is_run_error pre))%nat.
Proof.
  intros Hadded Hpre. revert x Hadded.
  induction Hpre as [|event pre Hev _ IH]; intros x Hadded.
  - cbn. lia.
  - rewrite reduce_all_cons, IH.
    + rewrite messages_reduce, filter_cons, Hadded. cbv zeta.
      rewrite decide_False by done.
      repeat case_decide; rewrite ?replace_last_length, ?length_app; cbn;
        try lia; unfold is_content, is_run_error in *; congruence.
    + rewrite messageAdded_reduce. by rewrite decide_False.
Qed.

Lemma length_after_start (older : list MessageRef) (x : Exchange) :
  appended older x -> length (messages (page x)) = S (length older).
Proof. intros (_ & _ & r & -> & _). rewrite length_app. cbn. lia. Qed.
End Counting.

(** X5. The number of messages that the events of an exchange add to the
    transcript: one for each [RUN_ERROR] that arrives before the first
    [TEXT_MESSAGE_START], one for the first [TEXT_MESSAGE_START], and none
    for anything else; in particular an exchange appends at most one
    message for its [TEXT_MESSAGE_START] events, however many arrive. *)
Theorem messages_added_by_an_exchange
    (Date : nat -> Stamp) (st : ChatPage Message.t) (events : list Event.t) :
  length (transcript (reduce_all Date events (exchange_start Date st))) =
    (length (messages st) + 1
     + length (filter is_run_error (before_first_start events))
     + (if decide (Exists is_start events) then 1 else 0))%nat.
Proof.
  assert (length (messages (page (exchange_start Date st)))
          = (length (messages st) + 1)%nat) as Hstart.
  { cbn. rewrite length_fmap, length_app. cbn. lia. }
  unfold transcript. rewrite length_fmap. case_decide as Hex.
  - destruct (before_first_start_split events Hex)
      as (start & post & Hs & Heq).
    pose proof (before_first_start_no_start events) as Hpre.
    set (pre := before_first_start events) in *.
    rewrite Heq, reduce_all_app, reduce_all_cons.
    set (x1 := reduce_all Date pre (exchange_start Date st)).
    assert (messageAdded x1 = false) as Hadded
      by (unfold x1; by rewrite messageAdded_without_start).
    assert (coherent x1) as [Hrole _]
      by apply coherent_reduce_all, coherent_start.
    assert (appended (messages (page x1)) (reduce Date start x1)) as Happ.
    { rewrite reduce_TEXT_MESSAGE_START by done. cbn. rewrite Hadded. cbn.
      repeat split; [done|]. by exists AssistantMsg. }
    rewrite (length_after_start (messages (page x1))
               (reduce_all Date post (reduce Date start x1)))
      by by apply appended_reduce_all.
    unfold x1. rewrite length_before_start by done. lia.
  - rewrite (before_first_start_all events Hex).
    rewrite length_before_start; [lia|done|].
    apply Forall_forall. intros event Hin Hev. apply Hex.
    apply Exists_exists. by exists event.
Qed.

(** ** More on the tool-call registry *)

Section RegistryMore.
Variable Date : nat -> Stamp.

Lemma map_matching_lookup (id : string) (f : ToolCall.t -> ToolCall.t)
    (prev : list ToolCall.t) (i : nat) (tc : ToolCall.t) :
  prev !! i = Some tc ->
  map_matching id f prev !! i =
    Some (if decide (ToolCall.id tc = id) then f tc else tc).
Proof. intros Hi. unfold map_matching. by rewrite list_lookup_fmap, Hi. Qed.

Lemma map_matching_app (id : string) (f : ToolCall.t -> ToolCall.t)
    (prev later : list ToolCall.t) :
  map_matching id f (prev ++ later) =
    map_matching id f prev ++ map_matching id f later.
Proof. unfold map_matching. apply fmap_app. Qed.

Lemma map_matching_twice (id : string) (f g : ToolCall.t -> ToolCall.t)
    (prev : list ToolCall.t) :
  (forall tc, ToolCall.id (f tc) = ToolCall.id tc) ->
  map_matching id g (map_matching id f prev) =
    map_matching id (g ∘ f) prev.
Proof.
  intros Hf. unfold map_matching. rewrite <- list_fmap_compose.
  apply list_fmap_ext. intros _ tc _. cbn.
  pose proof (Hf tc) as Hftc.
  repeat case_decide; congruence.
Qed.

Lemma map_matching_comm (i j : string) (f g : ToolCall.t -> ToolCall.t)
    (prev : list ToolCall.t) :
  (forall tc, ToolCall.id (f tc) = ToolCall.id tc) ->
  (forall tc, ToolCall.id (g tc) = ToolCall.id tc) ->
  (forall tc, f (g tc) = g (f tc)) ->
  map_matching i f (map_matching j g prev) =
    map_matching j g (map_matching i f prev).
Proof.
  intros Hf Hg Hfg. unfold map_matching. rewrite <- !list_fmap_compose.
  apply list_fmap_ext. intros _ tc _. cbn.
  pose proof (Hf tc) as Hftc. pose proof (Hg tc) as Hgtc.
  repeat case_decide; try congruence; by rewrite ?Hfg.
Qed.

Lemma identity_map_matching (id : string) (f : ToolCall.t -> ToolCall.t)
    (prev : list ToolCall.t) :
  (forall tc, identity_of (f tc) = identity_of tc) ->
  identity_of <$> map_matching id f prev = identity_of <$> prev.
Proof.
  intros Hf. unfold map_matching. rewrite <- list_fmap_compose.
  apply list_fmap_ext. intros _ tc _. cbn. by case_decide.
Qed.

Lemma identity_reduce (event : Event.t) (x : Exchange) :
  (identity_of <$> toolCalls (page x))
    `prefix_of` (identity_of <$> toolCalls (page (reduce Date event x))).
Proof.
  rewrite toolCalls_reduce. cbv zeta. repeat case_decide; [| | |done].
  - destruct (decide (Event.toolCallId event ∈ ids (toolCalls (page x)))).
    + rewrite tool_call_start_present by done.
      by rewrite identity_map_matching.
    + rewrite tool_call_start_absent by done.
      rewrite fmap_app. by apply prefix_app_r.
  - by rewrite identity_map_matching.
  - by rewrite identity_map_matching.
Qed.
End RegistryMore.

(** X6. A [TOOL_CALL_RESULT] sets the result and the status completed on
    the entries of its id and on nothing else; id, name, args and the
    expanded flag of every entry stay.  For an id that is not in the
    registry the registry stays as it is.  A later result for the same id
    replaces the earlier one.  The status line becomes
    "processing results...". *)
Theorem tool_call_result_sets_result
    (Date : nat -> Stamp) (x : Exchange) (event : Event.t) :
  Event.type event = "TOOL_CALL_RESULT" ->
  let prev := toolCalls (page x) in
  let next := toolCalls (page (reduce Date event x)) in
  (forall i tc, prev !! i = Some tc ->
     next !! i =
       Some (if decide (ToolCall.id tc = Event.toolCallId event)
             then ToolCall.mk (ToolCall.id tc) (ToolCall.name tc)
                              (ToolCall.args tc) (Event.content event)
                              completed (ToolCall.expanded tc)
             else tc))
  /\ length next = length prev
  /\ (Event.toolCallId event ∉ ids prev -> next = prev)
  /\ (forall later,
        Event.type later = "TOOL_CALL_RESULT" ->
        Event.toolCallId later = Event.toolCallId event ->
        toolCalls (page (reduce Date later (reduce Date event x))) =
          toolCalls (page (reduce Date later x)))
  /\ currentStatus (page (reduce Date event x)) = "processing results...".
Proof.
  intros Htype prev next.
  assert (forall e y, Event.type e = "TOOL_CALL_RESULT" ->
            toolCalls (page (reduce Date e y)) =
              map_matching (Event.toolCallId e) (set_result (Event.content e))
                           (toolCalls (page y))) as Hstep.
  { intros e y He. rewrite toolCalls_reduce, He. cbv zeta.
    by rewrite !decide_False, decide_True by done. }
  unfold next. rewrite (Hstep event x Htype). fold prev.
  split; [|split; [|split; [|split]]].
  - intros i tc Hi. by rewrite (map_matching_lookup _ _ _ _ _ Hi).
  - unfold map_matching. by rewrite length_fmap.
  - apply map_matching_absent.
  - intros later Hlater Hid.
    rewrite (Hstep later _ Hlater), (Hstep event x Htype), (Hstep later x Hlater).
    rewrite Hid, map_matching_twice by done.
    unfold map_matching. apply list_fmap_ext. intros _ tc _. cbn.
    by case_decide.
  - unfold reduce. rewrite Htype. reflexivity.
Qed.

(** X7. The life of a tool call.  A [TOOL_CALL_START] with an id that is
    not in the registry, then any [TOOL_CALL_ARGS] events, then the
    [TOOL_CALL_RESULT] of that id, add one entry at the end of the
    registry: the name of the start event, the deltas addressed to the id
    concatenated in order, the content of the result, status completed,
    not expanded.  The entries that were there get the deltas addressed to
    them and are otherwise unchanged. *)
Theorem tool_call_life_cycle
    (Date : nat -> Stamp) (x : Exchange)
    (start : Event.t) (events : list Event.t) (result : Event.t) :
  Event.type start = "TOOL_CALL_START" ->
  Forall is_args events ->
  Event.type result = "TOOL_CALL_RESULT" ->
  Event.toolCallId result = Event.toolCallId start ->
  Event.toolCallId start ∉ ids (toolCalls (page x)) ->
  toolCalls (page (reduce_all Date (start :: events ++ [result]) x)) =
    ((fun tc => add_args (args_for (ToolCall.id tc) events) tc)
       <$> toolCalls (page x))
    ++ [ToolCall.mk (Event.toolCallId start) (Event.toolCallName start)
                    (args_for (Event.toolCallId start) events)
                    (Event.content result) completed false].
Proof.
  intros Hstart Hargs Hresult Hid Hfresh.
  rewrite reduce_all_cons, reduce_all_app, reduce_all_cons.
  change (reduce_all Date [] ?y) with y.
  rewrite toolCalls_reduce, Hresult. cbv zeta.
  rewrite !decide_False, decide_True by done.
  rewrite toolCalls_args_all by done.
  rewrite toolCalls_reduce, Hstart. cbv zeta. rewrite decide_True by done.
  rewrite tool_call_start_absent by done.
  rewrite fmap_app, map_matching_app, Hid. f_equal.
  - apply map_matching_absent. unfold ids in *.
    rewrite <- list_fmap_compose.
    by replace (ToolCall.id ∘ _) with ToolCall.id by done.
  - cbn. unfold map_matching. cbn. rewrite decide_True by done.
    unfold set_result, add_args. cbn. by rewrite app_nil_l.
Qed.

(** X8. A [TOOL_CALL_START] for an id that is in the registry starts the
    args over: after it and any [TOOL_CALL_ARGS] events, the args of the
    entries of that id are the deltas addressed to it since the restart and
    nothing of what was accumulated before, with name and result kept and
    status calling; the other entries get their own deltas appended. *)
Theorem restart_discards_args
    (Date : nat -> Stamp) (x : Exchange)
    (start : Event.t) (events : list Event.t) :
  Event.type start = "TOOL_CALL_START" ->
  Event.toolCallId start ∈ ids (toolCalls (page x)) ->
  Forall is_args events ->
  forall i tc,
    toolCalls (page x) !! i = Some tc ->
    toolCalls (page (reduce_all Date (start :: events) x)) !! i =
      Some (if decide (ToolCall.id tc = Event.toolCallId start)
            then ToolCall.mk (ToolCall.id tc) (ToolCall.name tc)
                             (args_for (ToolCall.id tc) events)
                             (ToolCall.result tc) calling
                             (ToolCall.expanded tc)
            else ToolCall.mk (ToolCall.id tc) (ToolCall.name tc)
                             (ToolCall.args tc
                                +:+ args_for (ToolCall.id tc) events)
                             (ToolCall.result tc) (ToolCall.status tc)
                             (ToolCall.expanded tc)).
Proof.
  intros Hstart Hin Hargs i tc Hi.
  rewrite reduce_all_cons, toolCalls_args_all by done.
  rewrite toolCalls_reduce, Hstart. cbv zeta. rewrite decide_True by done.
  rewrite tool_call_start_present by done.
  rewrite list_lookup_fmap, (map_matching_lookup _ _ _ _ _ Hi). cbn.
  case_decide; [|done]. unfold add_args, restart. cbn.
  by rewrite app_nil_l.
Qed.

(** X9. No event removes, reorders or renames a tool call, or changes
    whether it is expanded: after any events, the registry starts with
    entries of the same ids, names and expanded flags as before, in the
    same order; entries are only added at the end. *)
Theorem events_keep_tool_call_identities
    (Date : nat -> Stamp) (events : list Event.t) (x : Exchange) :
  (identity_of <$> toolCalls (page x))
    `prefix_of`
  (identity_of <$> toolCalls (page (reduce_all Date events x))).
Proof.
  revert x. induction events as [|event events IH]; intros x; [done|].
  rewrite reduce_all_cons. etrans; [apply identity_reduce|apply IH].
Qed.

(** ** The click on a tool call *)

Lemma flip_expanded_twice (tool : ToolCall.t) :
  flip_expanded (flip_expanded tool) = tool.
Proof. destruct tool. unfold flip_expanded. cbn. by rewrite negb_involutive. Qed.

(** X10. Expanding and collapsing a tool call.  Two clicks on the same
    tool call restore the registry; a click changes nothing but the
    expanded flag of the entries of that id; and a click on a tool call of
    the registry commutes with every event: the registry is the same
    whether the click comes before the event or after it. *)
Theorem toggle_expanded_properties
    (Date : nat -> Stamp) (id : string) (x : Exchange) :
  let prev := toolCalls (page x) in
  toggle_expanded id (toggle_expanded id prev) = prev
  /\ (forall i tc, prev !! i = Some tc ->
        toggle_expanded id prev !! i =
          Some (ToolCall.mk (ToolCall.id tc) (ToolCall.name tc)
                  (ToolCall.args tc) (ToolCall.result tc) (ToolCall.status tc)
                  (if decide (ToolCall.id tc = id)
                   then negb (ToolCall.expanded tc)
                   else ToolCall.expanded tc)))
  /\ (id ∈ ids prev ->
      forall event,
        toolCalls (page (reduce Date event
                           (on_page (setToolCalls (toggle_expanded id)) x))) =
          toggle_expanded id (toolCalls (page (reduce Date event x)))).
Proof.
  intros prev. unfold toggle_expanded. split; [|split].
  - rewrite map_matching_twice by done.
    unfold map_matching. rewrite <- (list_fmap_id prev) at 2.
    apply list_fmap_ext. intros _ tc _. cbn.
    case_decide; [apply flip_expanded_twice|done].
  - intros i tc Hi. rewrite (map_matching_lookup _ _ _ _ _ Hi).
    case_decide; [done|]. by destruct tc.
  - intros Hin event. rewrite !toolCalls_reduce. cbv zeta.
    change (toolCalls (page (on_page _ x)))
      with (map_matching id flip_expanded prev).
    fold prev. repeat case_decide; [| | |done].
    + assert (ids (map_matching id flip_expanded prev) = ids prev) as Hids
        by by apply ids_map_matching.
      destruct (decide (Event.toolCallId event ∈ ids prev)) as [Hev|Hev].
      * rewrite (tool_call_start_present event
                   (map_matching id flip_expanded prev))
          by (rewrite Hids; exact Hev).
        rewrite (tool_call_start_present event prev) by exact Hev.
        by apply map_matching_comm.
      * rewrite (tool_call_start_absent event
                   (map_matching id flip_expanded prev))
          by (rewrite Hids; exact Hev).
        rewrite (tool_call_start_absent event prev) by exact Hev.
        rewrite map_matching_app. f_equal.
        unfold map_matching. cbn. rewrite decide_False; [done|].
        intros Heq. apply Hev. by rewrite Heq.
    + by apply map_matching_comm.
    + by apply map_matching_comm.
Qed.

(** ** "New Chat" while an answer is streaming *)

(** X11. "New Chat" does not stop a running exchange, and the greeting it
    restores is an assistant message at the end of the array: the next
    [TEXT_MESSAGE_CONTENT] of the running exchange replaces the greeting by
    the assistant message of that exchange, so that the transcript consists
    of that message alone, with all the deltas of the exchange so far. *)
Theorem content_after_new_chat_replaces_greeting
    (Date : nat -> Stamp) (st : ChatPage Message.t)
    (events : list Event.t) (event : Event.t) :
  is_content event ->
  let x := reduce_all Date events (exchange_start Date st) in
  let x' := on_page (newChat (Own <$> initialMessages)) x in
  transcript x' = initialMessages
  /\ toolCalls (page x') = []
  /\ isLoading (page x') = isLoading (page x)
  /\ transcript (reduce Date event x') =
       [Message.mk (now (Date 1%nat) + 1) assistant
                   (text_of events +:+ Event.delta event)
                   (toLocaleTimeString (Date 1%nat))].
Proof.
  intros Hcontent x x'. split; [done|]. split; [done|]. split; [done|].
  rewrite reduce_TEXT_MESSAGE_CONTENT by done.
  unfold transcript. cbn.
  change (assistantMsg x') with (assistantMsg x).
  match goal with
  | |- context [replace_last ?msg [?r]] =>
      change (replace_last msg [r]) with (replace_last msg ([] ++ [r]));
      rewrite (replace_last_snoc msg [] r) by done
  end. cbn.
  unfold x. rewrite assistantMsg_reduce_all. reflexivity.
Qed.

(** ** The send button and the keyboard *)

Section Controls.
Variable Date : nat -> Stamp.
Variable JSON_parse : string -> option Event.t.
Variable fetch : Request -> FetchResult.

Lemma send_disabled_guard (st : ChatPage Message.t) :
  send_disabled st = false <->
  JS.trim (input st) <> "" /\ isLoading st = false.
Proof.
  unfold send_disabled, JS.truthy. rewrite orb_false_iff, negb_involutive.
  rewrite bool_decide_eq_false. tauto.
Qed.

Lemma sendMessage_requests (st : ChatPage Message.t) :
  (sendMessage Date JSON_parse fetch st).2 =
    if send_disabled st then [] else [request_for (JS.trim (input st))].
Proof.
  destruct (send_disabled st) eqn:Hdis.
  - unfold sendMessage, send_disabled in *.
    rewrite orb_comm in Hdis. by rewrite Hdis.
  - apply send_disabled_guard in Hdis as [Hinput Hloading].
    rewrite sendMessage_passes_guard by done. cbv zeta.
    by destruct (try_block _ _ _ _ _ _) as [[[] ?] ?].
Qed.

Lemma sendMessage_disabled (st : ChatPage Message.t) :
  send_disabled st = true -> sendMessage Date JSON_parse fetch st = (st, []).
Proof.
  intros Hdis. unfold sendMessage, send_disabled in *.
  rewrite orb_comm in Hdis. by rewrite Hdis.
Qed.
End Controls.

(** X12. The send button is disabled exactly when [sendMessage] would do
    nothing: if it is disabled, [sendMessage] returns the state unchanged
    and issues no request; if it is enabled, [sendMessage] issues one
    request, for the trimmed input. *)
Theorem send_button_disabled_iff_no_op
    (Date : nat -> Stamp) (JSON_parse : string -> option Event.t)
    (fetch : Request -> FetchResult) (st : ChatPage Message.t) :
  (send_disabled st = true <->
   sendMessage Date JSON_parse fetch st = (st, []))
  /\ (send_disabled st = false <->
      (sendMessage Date JSON_parse fetch st).2
        = [request_for (JS.trim (input st))]).
Proof.
  pose proof (sendMessage_requests Date JSON_parse fetch st) as Hreq.
  split; split.
  - apply sendMessage_disabled.
  - intros Hsend. rewrite Hsend in Hreq. cbn in Hreq.
    by destruct (send_disabled st).
  - intros Hdis. by rewrite Hdis in Hreq.
  - intros Hsend. rewrite Hsend in Hreq. by destruct (send_disabled st).
Qed.

(** X13. A key press submits exactly when it is Enter without Shift: then
    the default action of the key is prevented and the press is a
    [sendMessage]; any other key, and Enter with Shift, changes nothing,
    issues nothing and keeps its default action.  A request is issued
    exactly for Enter without Shift while the send button is enabled. *)
Theorem handleKey_submits_on_plain_enter
    (Date : nat -> Stamp) (JSON_parse : string -> option Event.t)
    (fetch : Request -> FetchResult) (e : KeyEvent)
    (st : ChatPage Message.t) :
  let '(st', requests, prevented) :=
    handleKey Date JSON_parse fetch e st in
  (prevented = true <-> key e = "Enter" /\ shiftKey e = false)
  /\ (prevented = true ->
      (st', requests) = sendMessage Date JSON_parse fetch st)
  /\ (prevented = false -> st' = st /\ requests = [])
  /\ (requests <> [] <->
      key e = "Enter" /\ shiftKey e = false /\ send_disabled st = false).
Proof.
  unfold handleKey.
  pose proof (sendMessage_requests Date JSON_parse fetch st) as Hreq.
  destruct (sendMessage Date JSON_parse fetch st) as [st' requests].
  cbn [snd] in Hreq.
  destruct (bool_decide (key e = "Enter")) eqn:Hkey;
    [apply bool_decide_eq_true in Hkey|apply bool_decide_eq_false in Hkey];
    destruct (shiftKey e) eqn:Hshift; cbn;
    subst requests; destruct (send_disabled st);
    intuition congruence.
Qed.

(** ** The panel of tool calls *)

Lemma tool_panel_shown_iff (st : ChatPage Message.t) (index : nat)
    (msg : Message.t) :
  tool_panel_shown st index msg = true <->
  Message.role msg = assistant
  /\ S index = length (messages st)
  /\ toolCalls st <> [].
Proof.
  unfold tool_panel_shown, isLastAssistantMsg.
  rewrite !andb_true_iff, bool_decide_eq_true, Z.eqb_eq, Z.ltb_lt.
  split.
  - intros [[Hrole [[_ Hlast] _]] Hsome]. split; [done|]. split; [lia|].
    intros Hnil. rewrite Hnil in Hsome. cbn in Hsome. lia.
  - intros (Hrole & Hlast & Hsome).
    assert (0 < Z.of_nat (length (toolCalls st))).
    { destruct (toolCalls st); [done|]. cbn. lia. }
    repeat split; try done. lia.
Qed.

(** X14. Where the tool calls are rendered: above the message at an index
    exactly when that message is the last of the transcript, is an
    assistant message, and the registry is not empty.  So the panel is
    rendered at most once, and not at all while the transcript ends with a
    message of the user, whatever the registry holds. *)
Theorem tool_panel_only_above_last_assistant_message
    (st : ChatPage Message.t) :
  (forall index msg,
     messages st !! index = Some msg ->
     (tool_panels st !! index = Some true <->
      Message.role msg = assistant
      /\ S index = length (messages st)
      /\ toolCalls st <> []))
  /\ (forall i j,
        tool_panels st !! i = Some true ->
        tool_panels st !! j = Some true -> i = j)
  /\ (forall msg,
        last (messages st) = Some msg ->
        Message.role msg = user ->
        forall index, tool_panels st !! index <> Some true).
Proof.
  assert (forall index msg,
     messages st !! index = Some msg ->
     (tool_panels st !! index = Some true <->
      Message.role msg = assistant
      /\ S index = length (messages st)
      /\ toolCalls st <> [])) as Hshown.
  { intros index msg Hmsg. unfold tool_panels.
    rewrite list_lookup_imap, Hmsg. cbn.
    rewrite <- tool_panel_shown_iff. split; [by intros [= ->]|by intros ->]. }
  assert (forall index,
     tool_panels st !! index = Some true ->
     exists msg, messages st !! index = Some msg) as Hmsg.
  { intros index Hpanel. unfold tool_panels in Hpanel.
    rewrite list_lookup_imap in Hpanel.
    destruct (messages st !! index) as [msg|]; [by eauto|done]. }
  split; [done|]. split.
  - intros i j Hi Hj.
    destruct (Hmsg i Hi) as [mi Hmi]. destruct (Hmsg j Hj) as [mj Hmj].
    apply (Hshown i mi Hmi) in Hi as (_ & Hi & _).
    apply (Hshown j mj Hmj) in Hj as (_ & Hj & _). lia.
  - intros msg Hlast Huser index Hpanel.
    destruct (Hmsg index Hpanel) as [m Hm].
    destruct (proj1 (Hshown index m Hm) Hpanel) as (Hrole & Hindex & _).
    rewrite last_lookup in Hlast. rewrite <- Hindex in Hlast. cbn in Hlast.
    rewrite Hm in Hlast. injection Hlast as Heq. rewrite Heq in Hrole.
    by rewrite Huser in Hrole.
Qed.

(** ** The scroll flags *)

(** X15. The scroll flags never say both "near the bottom" and "the user
    has scrolled".  Every scroll event establishes this, from any state;
    an unset [chatRef], the "Jump to latest" button, "New Chat" and
    [sendMessage] keep it.  At a distance from the bottom of more than the
    threshold of 24 and at most 100, a scroll event clears "near the
    bottom" and leaves "the user has scrolled" as it was; above 100 it sets
    it; within the threshold it clears it. *)
Theorem scroll_flags_are_consistent
    (Date : nat -> Stamp) (JSON_parse : string -> option Event.t)
    (fetch : Request -> FetchResult)
    (el : ScrollMetrics) (st : ChatPage Message.t) :
  let distanceFromBottom :=
    scrollHeight el - clientHeight el - scrollTop el in
  scroll_consistent (onScroll (Some el) st)
  /\ (scroll_consistent st ->
      scroll_consistent (onScroll None st)
      /\ scroll_consistent (jumpToLatest st)
      /\ scroll_consistent (newChat initialMessages st)
      /\ scroll_consistent (sendMessage Date JSON_parse fetch st).1)
  /\ isNearBottom (onScroll (Some el) st)
       = bool_decide (distanceFromBottom <= 24)
  /\ (distanceFromBottom <= 24 ->
      userHasScrolled (onScroll (Some el) st) = false)
  /\ (24 < distanceFromBottom <= 100 ->
      userHasScrolled (onScroll (Some el) st) = userHasScrolled st)
  /\ (100 < distanceFromBottom ->
      userHasScrolled (onScroll (Some el) st) = true).
Proof.
  intros d. unfold scroll_consistent, onScroll, SCROLL_THRESHOLD. fold d.
  destruct (Z.leb_spec d 24) as [Hnear|Hfar];
    destruct (Z.ltb_spec 100 d) as [Hover|Hband]; cbn;
    (split; [done|]);
    (split;
     [intros Hst; split; [done|]; split; [done|]; split; [done|];
      destruct (send_disabled st) eqn:Hdis;
      [by rewrite (sendMessage_disabled Date JSON_parse fetch st Hdis)|
       apply send_disabled_guard in Hdis as [Hinput Hloading];
       rewrite sendMessage_passes_guard by done; cbv zeta;
       destruct (try_block_after_submit Date JSON_parse fetch st
                   (JS.trim (input st)))
         as (completion & extra & p & t & -> & _ & _ & Hscrolled & _);
       by destruct completion]|]);
    (split; [symmetry; first [by apply bool_decide_eq_true_2
                             |apply bool_decide_eq_false_2; lia]|]);
    repeat split; try done; lia.
Qed.

(** ** The further theorems at sample inputs *)

Lemma stream_of_events_is_reduced_witness :
  Forall (fun event => sample_parse (sample_enc event) = Some event
                       /\ JS.has_LF (sample_enc event) = false)
         sample_events
  /\ JS.concat sample_chunks = wire sample_enc sample_events
  /\ JS.trim (input sample_page) <> ""
  /\ isLoading sample_page = false
  /\ sendMessage sample_Date sample_parse sample_stream sample_page =
       (finally_block
          (freeze (reduce_all sample_Date sample_events
                     (exchange_start sample_Date sample_page))),
        [request_for "hello"]).
Proof.
  assert (Forall (fun event => sample_parse (sample_enc event) = Some event
                               /\ JS.has_LF (sample_enc event) = false)
                 sample_events) as Hall
    by (repeat constructor).
  assert (JS.concat sample_chunks = wire sample_enc sample_events) as Htext
    by reflexivity.
  assert (JS.trim (input sample_page) <> "") as Hinput
    by (intros H; discriminate H).
  split; [exact Hall|]. split; [exact Htext|]. split; [exact Hinput|].
  split; [reflexivity|].
  destruct (stream_of_events_is_reduced sample_Date sample_parse sample_enc
              sample_events sample_chunks Hall Htext) as [_ Hsend].
  exact (Hsend sample_stream sample_page 200 Hinput eq_refl eq_refl).
Defined.

Lemma passed_over_lines_change_nothing_witness :
  passed_over sample_parse ": keep-alive"
  /\ read_loop sample_Date sample_parse
       [line "data: TEXT_MESSAGE_START" +:+ line ": keep-alive";
        line "data: C:Hi" +:+ "da"] ""
       (exchange_start sample_Date sample_page) =
     read_loop sample_Date sample_parse
       [line "data: TEXT_MESSAGE_START" +:+ line "data: C:Hi" +:+ "da"] ""
       (exchange_start sample_Date sample_page).
Proof.
  assert (passed_over sample_parse ": keep-alive") as Hpart by exact I.
  split; [exact Hpart|].
  apply (passed_over_lines_change_nothing sample_Date sample_parse
           ["data: TEXT_MESSAGE_START"] ["data: C:Hi"] ": keep-alive" "da");
    [exact Hpart|repeat constructor|reflexivity..].
Defined.

Lemma sendMessage_keeps_history_witness :
  JS.trim (input sample_page) <> ""
  /\ isLoading sample_page = false
  /\ exists extra,
       messages (sendMessage sample_Date sample_parse broken_stream
                   sample_page).1 =
         initialMessages
           ++ Message.mk 1700000000000 user "hello" "11:01 AM" :: extra.
Proof.
  assert (JS.trim (input sample_page) <> "") as Hinput
    by (intros H; discriminate H).
  split; [exact Hinput|]. split; [reflexivity|].
  exact (sendMessage_keeps_history sample_Date sample_parse broken_stream
           sample_page Hinput eq_refl).
Defined.

Lemma sendMessage_end_state_witness :
  JS.trim (input sample_page) <> ""
  /\ isLoading sample_page = false
  /\ let '(st', requests) :=
       sendMessage sample_Date sample_parse broken_stream sample_page in
     requests = [{| method := "POST"; userprompt := "hello";
                    Accept := "text/event-stream" |}]
     /\ input st' = ""
     /\ isLoading st' = false
     /\ currentStatus st' = "online"
     /\ userHasScrolled st' = false
     /\ isNearBottom st' = true.
Proof.
  assert (JS.trim (input sample_page) <> "") as Hinput
    by (intros H; discriminate H).
  split; [exact Hinput|]. split; [reflexivity|].
  exact (sendMessage_end_state sample_Date sample_parse broken_stream
           sample_page Hinput eq_refl).
Defined.

Lemma tool_call_result_sets_result_witness :
  Event.type (TOOL_CALL_RESULT "t1" "none") = "TOOL_CALL_RESULT"
  /\ toolCalls (page (reduce sample_Date (TOOL_CALL_RESULT "t1" "none")
                        sample_exchange)) !! 0%nat =
       Some (ToolCall.mk "t1" "search" "q=cats" "none" completed false).
Proof.
  split; [reflexivity|].
  destruct (tool_call_result_sets_result sample_Date sample_exchange
              (TOOL_CALL_RESULT "t1" "none") eq_refl) as [Hlookup _].
  exact (Hlookup 0%nat
           (ToolCall.mk "t1" "search" "q=cats" "3 results" completed false)
           eq_refl).
Defined.

Lemma tool_call_life_cycle_witness :
  Forall is_args [TOOL_CALL_ARGS "t2" "id="; TOOL_CALL_ARGS "t2" "7"]
  /\ (Event.toolCallId (TOOL_CALL_START "t2" "lookup")
        ∉ ids (toolCalls (page sample_exchange)))
  /\ toolCalls (page (reduce_all sample_Date
                        (TOOL_CALL_START "t2" "lookup"
                           :: [TOOL_CALL_ARGS "t2" "id=";
                               TOOL_CALL_ARGS "t2" "7"]
                           ++ [TOOL_CALL_RESULT "t2" "found"])
                        sample_exchange)) =
       [ToolCall.mk "t1" "search" "q=cats" "3 results" completed false;
        ToolCall.mk "t2" "lookup" "id=7" "found" completed false].
Proof.
  assert (Forall is_args [TOOL_CALL_ARGS "t2" "id="; TOOL_CALL_ARGS "t2" "7"])
    as Hargs by (repeat constructor).
  assert (Event.toolCallId (TOOL_CALL_START "t2" "lookup")
            ∉ ids (toolCalls (page sample_exchange))) as Hfresh.
  { cbn. intros H. apply list_elem_of_singleton in H. discriminate H. }
  split; [exact Hargs|]. split; [exact Hfresh|].
  rewrite (tool_call_life_cycle sample_Date sample_exchange
             (TOOL_CALL_START "t2" "lookup")
             [TOOL_CALL_ARGS "t2" "id="; TOOL_CALL_ARGS "t2" "7"]
             (TOOL_CALL_RESULT "t2" "found") eq_refl Hargs eq_refl eq_refl
             Hfresh).
  reflexivity.
Defined.

Lemma restart_discards_args_witness :
  (Event.toolCallId (TOOL_CALL_START "t1" "other")
     ∈ ids (toolCalls (page sample_exchange)))
  /\ Forall is_args [TOOL_CALL_ARGS "t1" "q=dogs"]
  /\ toolCalls (page (reduce_all sample_Date
                        [TOOL_CALL_START "t1" "other";
                         TOOL_CALL_ARGS "t1" "q=dogs"]
                        sample_exchange)) !! 0%nat =
       Some (ToolCall.mk "t1" "search" "q=dogs" "3 results" calling false).
Proof.
  assert (Event.toolCallId (TOOL_CALL_START "t1" "other")
            ∈ ids (toolCalls (page sample_exchange))) as Hin by (cbn; left).
  assert (Forall is_args [TOOL_CALL_ARGS "t1" "q=dogs"]) as Hargs
    by (repeat constructor).
  split; [exact Hin|]. split; [exact Hargs|].
  exact (restart_discards_args sample_Date sample_exchange
           (TOOL_CALL_START "t1" "other") [TOOL_CALL_ARGS "t1" "q=dogs"]
           eq_refl Hin Hargs 0%nat
           (ToolCall.mk "t1" "search" "q=cats" "3 results" completed false)
           eq_refl).
Defined.

Lemma toggle_expanded_properties_witness :
  ("t1" ∈ ids (toolCalls (page sample_exchange)))
  /\ toggle_expanded "t1"
       (toggle_expanded "t1" (toolCalls (page sample_exchange)))
     = toolCalls (page sample_exchange)
  /\ toolCalls (page (reduce sample_Date (TOOL_CALL_ARGS "t1" "&n=1")
                        (on_page (setToolCalls (toggle_expanded "t1"))
                                 sample_exchange))) =
       [ToolCall.mk "t1" "search" "q=cats&n=1" "3 results" completed true].
Proof.
  assert ("t1" ∈ ids (toolCalls (page sample_exchange))) as Hin
    by (cbn; left).
  destruct (toggle_expanded_properties sample_Date "t1" sample_exchange)
    as (Htwice & _ & Hcomm).
  split; [exact Hin|]. split; [exact Htwice|].
  rewrite (Hcomm Hin (TOOL_CALL_ARGS "t1" "&n=1")). reflexivity.
Defined.

Lemma content_after_new_chat_replaces_greeting_witness :
  is_content (TEXT_MESSAGE_CONTENT " there")
  /\ transcript
       (reduce sample_Date (TEXT_MESSAGE_CONTENT " there")
          (on_page (newChat (Own <$> initialMessages))
             (reduce_all sample_Date sample_events
                (exchange_start sample_Date sample_page)))) =
       [Message.mk 1700000000002 assistant "Hi there" "11:01 AM"].
Proof.
  split; [reflexivity|].
  destruct (content_after_new_chat_replaces_greeting sample_Date sample_page
              sample_events (TEXT_MESSAGE_CONTENT " there") eq_refl)
    as (_ & _ & _ & Hreplaced).
  exact Hreplaced.
Defined.

Lemma send_button_disabled_iff_no_op_witness :
  send_disabled (setInput "   " initial_page) = true
  /\ sendMessage sample_Date sample_parse sample_stream
       (setInput "   " initial_page) = (setInput "   " initial_page, [])
  /\ send_disabled sample_page = false
  /\ (sendMessage sample_Date sample_parse sample_stream sample_page).2
       = [request_for "hello"].
Proof.
  split; [reflexivity|]. split; [|split; [reflexivity|]].
  - apply (proj1 (send_button_disabled_iff_no_op sample_Date sample_parse
                    sample_stream (setInput "   " initial_page))).
    reflexivity.
  - apply (proj2 (send_button_disabled_iff_no_op sample_Date sample_parse
                    sample_stream sample_page)).
    reflexivity.
Defined.

Lemma handleKey_submits_on_plain_enter_witness :
  let '(st', requests, prevented) :=
    handleKey sample_Date sample_parse sample_stream
              {| key := "Enter"; shiftKey := true |} sample_page in
  prevented = false /\ st' = sample_page /\ requests = [].
Proof.
  pose proof (handleKey_submits_on_plain_enter sample_Date sample_parse
                sample_stream {| key := "Enter"; shiftKey := true |}
                sample_page) as Hkey.
  destruct (handleKey _ _ _ _ _) as [[st' requests] prevented].
  destruct Hkey as (Hprevented & _ & Hnot & _).
  assert (prevented = false) as Hfalse.
  { destruct prevented; [|reflexivity].
    destruct (proj1 Hprevented eq_refl) as [_ Hshift]. discriminate Hshift. }
  split; [exact Hfalse|]. exact (Hnot Hfalse).
Defined.

Lemma tool_panel_only_above_last_assistant_message_witness :
  let st := freeze sample_exchange in
  last (messages st) = Some (Message.mk 1700000000000 user "hello" "11:01 AM")
  /\ toolCalls st <> []
  /\ forall index, tool_panels st !! index <> Some true.
Proof.
  cbv zeta.
  destruct (tool_panel_only_above_last_assistant_message
              (freeze sample_exchange)) as (_ & _ & Huser).
  split; [reflexivity|]. split; [intros H; discriminate H|].
  exact (Huser (Message.mk 1700000000000 user "hello" "11:01 AM")
               eq_refl eq_refl).
Defined.

Lemma scroll_flags_are_consistent_witness :
  24 < scrollHeight sample_scroll - clientHeight sample_scroll
         - scrollTop sample_scroll <= 100
  /\ scroll_consistent (onScroll (Some sample_scroll) sample_page)
  /\ isNearBottom (onScroll (Some sample_scroll) sample_page) = false
  /\ userHasScrolled (onScroll (Some sample_scroll) sample_page)
       = userHasScrolled sample_page.
Proof.
  assert (24 < scrollHeight sample_scroll - clientHeight sample_scroll
                 - scrollTop sample_scroll <= 100) as Hband
    by (split; [reflexivity|discriminate]).
  destruct (scroll_flags_are_consistent sample_Date sample_parse
              sample_stream sample_scroll sample_page)
    as (Hcons & _ & Hnear & _ & Hkeep & _).
  split; [exact Hband|]. split; [exact Hcons|]. split; [exact Hnear|].
  exact (Hkeep Hband).
Defined.
